(** * Switch swap-out checker: report builders

    A shallow embedding of [process_cdp_neighbors.py] and
    [process_mac_address_table.py], and the properties of the two report
    builders that the design document states.

    Python values are modelled as follows.
    - A [str] is the list of its Unicode code points, each an [N].
    - A [list] of strings is a Rocq list, [append] and [extend] add at the end.
    - A [set] of strings is a [gset].
    - An operation that can raise ([x[i]] out of range) returns a [result];
      the only exception these modules can raise by themselves is
      [IndexError].
    - A [for] loop over a list threads its local variables through
      [for_each]; [continue] returns the state unchanged. *)

From Stdlib Require Import ZArith NArith Ascii String DecimalString DecimalNat.
From stdpp Require Import base decidable option list sets gmap.

Open Scope N_scope.

(** ** Python strings *)

Abbreviation char := N (only parsing).
Abbreviation str := (list N) (only parsing).

(** A literal of the source, as code points. *)
Fixpoint of_string (s : string) : str :=
  match s with
  | EmptyString => []
  | String a s' => N_of_ascii a :: of_string s'
  end.

Notation "'u' s" := (of_string s%string) (at level 1, s at level 0, only parsing).

(** The escape [\n] of the source. *)
Definition newline : str := [10].

(** [bool(x)] of a string or a list: non-empty. *)
Definition truthy {A} (l : list A) : bool :=
  match l with
  | [] => false
  | _ :: _ => true
  end.

(** [str.isspace] on one character, [Py_UNICODE_ISSPACE]: the code points of
    bidirectional type WS, B or S, or of category Zs. *)
Definition is_space (c : char) : bool :=
  ((9 <=? c) && (c <=? 13)) || ((28 <=? c) && (c <=? 32))
  || (c =? 133) || (c =? 160) || (c =? 5760)
  || ((8192 <=? c) && (c <=? 8202))
  || (c =? 8232) || (c =? 8233) || (c =? 8239) || (c =? 8287) || (c =? 12288).

(** [Py_UNICODE_ISLINEBREAK], the line boundaries of [str.splitlines]. *)
Definition is_linebreak (c : char) : bool :=
  ((10 <=? c) && (c <=? 13)) || ((28 <=? c) && (c <=? 30))
  || (c =? 133) || (c =? 8232) || (c =? 8233).

Fixpoint lstrip (s : str) : str :=
  match s with
  | [] => []
  | c :: s' => if is_space c then lstrip s' else s
  end.

Definition rstrip (s : str) : str := rev (lstrip (rev s)).

(** [s.strip()] *)
Definition strip (s : str) : str := rstrip (lstrip s).

(** [s.startswith(p)] *)
Fixpoint startswith (s p : str) {struct p} : bool :=
  match p, s with
  | [], _ => true
  | _ :: _, [] => false
  | a :: p', c :: s' => (a =? c) && startswith s' p'
  end.

(** [sub in s] *)
Fixpoint contains (sub s : str) : bool :=
  startswith s sub ||
  match s with
  | [] => false
  | _ :: s' => contains sub s'
  end.

(** [s.splitlines()]: [cur] holds, reversed, the characters of the line
    being read; a carriage return directly followed by a line feed is one
    boundary; a last line without a boundary is kept when it is not empty. *)
Fixpoint splitlines_from (cur : str) (s : str) : list str :=
  match s with
  | [] => if truthy cur then [rev cur] else []
  | c :: s' =>
      if is_linebreak c then
        rev cur ::
        match s' with
        | c' :: s'' =>
            if (c =? 13) && (c' =? 10) then splitlines_from [] s''
            else splitlines_from [] s'
        | [] => []
        end
      else splitlines_from (c :: cur) s'
  end.

Definition splitlines (s : str) : list str := splitlines_from [] s.

(** [s.split()]: the maximal runs of characters that are not whitespace. *)
Fixpoint split_from (cur : str) (s : str) : list str :=
  match s with
  | [] => if truthy cur then [rev cur] else []
  | c :: s' =>
      if is_space c then
        if truthy cur then rev cur :: split_from [] s' else split_from [] s'
      else split_from (c :: cur) s'
  end.

Definition split (s : str) : list str := split_from [] s.

(** [sep.join(l)] *)
Fixpoint join (sep : str) (l : list str) : str :=
  match l with
  | [] => []
  | [x] => x
  | x :: l' => x ++ sep ++ join sep l'
  end.

(** [str(n)] for a length, as an f-string formats it. *)
Definition str_of_nat (n : nat) : str :=
  of_string (NilZero.string_of_uint (Nat.to_uint n)).

(** ** Exceptions *)

Inductive exn : Set := IndexError.

Inductive result (A : Type) : Type :=
| Ok (a : A)
| Raise (e : exn).
Arguments Ok {A} a.
Arguments Raise {A} e.

#[export] Instance result_ret : MRet result := @Ok.
#[export] Instance result_bind : MBind result := fun A B f m =>
  match m with
  | Ok a => f a
  | Raise e => Raise e
  end.

(** [l[i]], a negative [i] counting from the end. *)
Definition getitem {A} (l : list A) (i : Z) : result A :=
  let n := Z.of_nat (length l) in
  let j := if (i <? 0)%Z then (i + n)%Z else i in
  if ((0 <=? j) && (j <? n))%Z then
    match l !! Z.to_nat j with
    | Some x => Ok x
    | None => Raise IndexError
    end
  else Raise IndexError.

(** [for x in xs: body], the loop variables in [st]. *)
Fixpoint for_each {A St} (xs : list A) (body : A → St → result St) (st : St)
  : result St :=
  match xs with
  | [] => Ok st
  | x :: xs' => st' ← body x st; for_each xs' body st'
  end.

(** ** process_cdp_neighbors.py *)

(** The loop variables of [merge_wrapped_lines] (lines 8 and 9). *)
Record merge_state := MergeState {
  merged_lines : list str;
  current_line : str
}.

(** The body of its loop (lines 11 to 21). *)
Definition merge_body (line : str) (st : merge_state) : result merge_state :=
  if negb (truthy (strip line)) then Ok st
  else
    c ← getitem line 0;
    if is_space c then
      Ok (MergeState (merged_lines st) (current_line st ++ u" " ++ strip line))
    else
      let merged :=
        if truthy (current_line st) then merged_lines st ++ [current_line st]
        else merged_lines st in
      Ok (MergeState merged (strip line)).

Definition merge_wrapped_lines (raw_output : str) : result (list str) :=
  st ← for_each (splitlines raw_output) merge_body (MergeState [] []);
  if truthy (current_line st) then Ok (merged_lines st ++ [current_line st])
  else Ok (merged_lines st).

(** The helper of the same name that [process_cdp_neighbors] defines in its
    own body; the two texts differ in the name of the parameter only. *)
Definition merge_wrapped_lines_local (raw : str) : result (list str) :=
  st ← for_each (splitlines raw) merge_body (MergeState [] []);
  if truthy (current_line st) then Ok (merged_lines st ++ [current_line st])
  else Ok (merged_lines st).

(** The containers for the special lines (lines 70 to 72). *)
Record special_state := SpecialState {
  top_line : option str;
  bottom_lines : list str;
  main_lines : list str
}.

(** The body of the loop that separates them (lines 76 to 83). *)
Definition separate_body (line : str) (st : special_state)
  : result special_state :=
  if startswith line u"Total cdp entries displayed" then
    Ok (SpecialState (Some line) (bottom_lines st) (main_lines st))
  else if startswith line u"Capability Codes:" || startswith line u"Device ID"
  then Ok (SpecialState (top_line st) (bottom_lines st ++ [line]) (main_lines st))
  else Ok (SpecialState (top_line st) (bottom_lines st) (main_lines st ++ [line])).

Definition sav_keywords : list str :=
  [u"sav01"; u"sav02"; u"sav03"; u"CBS350"; u"SAV01"; u"SAV02"; u"SAV03"].
Definition uplink_keywords : list str :=
  [u"LBDS"; u"BDS"; u"SBDS"; u"HDS"; u"CPDS"].
Definition wap_models : list str :=
  [u"C9120AXI"; u"C9130A"; u"C9120A"; u"CW9166I"; u"AIR-AP"].
Definition phone_keyword : str := u"T33".

(** [any(keyword in line for keyword in keywords)] *)
Definition any_in (keywords : list str) (line : str) : bool :=
  existsb (fun keyword => contains keyword line) keywords.

(** The five category lists (lines 92 to 96). *)
Record categories := Categories {
  sav_switches : list str;
  uplinks : list str;
  waps : list str;
  phone_handsets : list str;
  unsorted : list str
}.

(** The body of the loop over the main lines (lines 99 to 112). *)
Definition categorize_body (line : str) (st : categories) : result categories :=
  if any_in sav_keywords line then
    Ok (Categories (sav_switches st ++ [line]) (uplinks st) (waps st)
          (phone_handsets st) (unsorted st))
  else if any_in uplink_keywords line then
    Ok (Categories (sav_switches st) (uplinks st ++ [line]) (waps st)
          (phone_handsets st) (unsorted st))
  else if any_in wap_models line then
    Ok (Categories (sav_switches st) (uplinks st) (waps st ++ [line])
          (phone_handsets st) (unsorted st))
  else if contains phone_keyword line then
    Ok (Categories (sav_switches st) (uplinks st) (waps st)
          (phone_handsets st ++ [line]) (unsorted st))
  else
    Ok (Categories (sav_switches st) (uplinks st) (waps st)
          (phone_handsets st) (unsorted st ++ [line])).

(** [if top_line:] on a value that is [None] or a string. *)
Definition truthy_opt (o : option str) : bool :=
  match o with
  | Some s => truthy s
  | None => false
  end.

(** The list [output_sections], built by [append] and [extend] (lines 115
    to 173). *)
Definition cdp_output_sections (sp : special_state) (cats : categories)
  : list str :=
  let out := [] in
  let out :=
    if truthy_opt (top_line sp) then out ++ [default [] (top_line sp)]
    else out ++ [u"Total cdp entries displayed: N/A"] in
  let out := out ++ [[]] in
  let out := out ++ [[]] in
  let out := out ++ [u"WAPs:"] in
  let out :=
    if truthy (waps cats) then out ++ waps cats
    else out ++ [u"No WAP entries found."] in
  let out :=
    out ++ [u"Total number of WAPs: " ++ str_of_nat (length (waps cats))] in
  let out := out ++ [newline ++ u"Phone Handsets:"] in
  let out :=
    if truthy (phone_handsets cats) then out ++ phone_handsets cats
    else out ++ [u"No phone handset entries found."] in
  let out :=
    out ++ [u"Total number of Phone Handsets: "
            ++ str_of_nat (length (phone_handsets cats))] in
  let out := out ++ [newline ++ u"sav switches:"] in
  let out :=
    if truthy (sav_switches cats) then out ++ sav_switches cats
    else out ++ [u"No sav switch entries found."] in
  let out := out ++ [newline ++ u"uplink to distribution layer:"] in
  let out :=
    if truthy (uplinks cats) then out ++ uplinks cats
    else out ++ [u"No uplink entries found."] in
  let out := out ++ [newline ++ u"Unsorted:"] in
  let out :=
    if truthy (unsorted cats) then out ++ unsorted cats
    else out ++ [u"No unsorted entries found."] in
  let out := out ++ [[]] in
  let out := out ++ [[]] in
  let out := out ++ [[]] in
  let out :=
    if truthy (bottom_lines sp) then out ++ bottom_lines sp
    else out ++ [u"No bottom special lines found."] in
  out.

Definition process_cdp_neighbors (raw_output : str) : result str :=
  merged ← merge_wrapped_lines_local raw_output;
  sp ← for_each merged separate_body (SpecialState None [] []);
  cats ← for_each (main_lines sp) categorize_body (Categories [] [] [] [] []);
  Ok (join newline (cdp_output_sections sp cats)).

(** The three buckets after the loop of lines 75 to 83, and the five lists
    after the loop of lines 98 to 112, as [process_cdp_neighbors] computes
    them. *)
Definition separate_special (merged : list str) : result special_state :=
  for_each merged separate_body (SpecialState None [] []).

Definition categorize (main : list str) : result categories :=
  for_each main categorize_body (Categories [] [] [] [] []).

(** ** process_mac_address_table.py *)

(** The loop variables of [get_trunk_interfaces] (lines 19 and 20). *)
Record trunk_state := TrunkState {
  trunk_list : list str;
  header_found : bool
}.

(** The body of its loop (lines 23 to 33). *)
Definition trunk_body (line : str) (st : trunk_state) : result trunk_state :=
  if negb (header_found st) then
    if startswith (strip line) u"Port" then Ok (TrunkState (trunk_list st) true)
    else Ok st
  else if negb (truthy (strip line)) then Ok st
  else
    let parts := split line in
    if truthy parts then
      p ← getitem parts 0;
      Ok (TrunkState (trunk_list st ++ [p]) (header_found st))
    else Ok st.

Definition get_trunk_interfaces (raw_trunk_output : str) : result (list str) :=
  st ← for_each (splitlines raw_trunk_output) trunk_body (TrunkState [] false);
  Ok (trunk_list st).

(** The dict [mapping], in the order its items are iterated. *)
Definition mapping : list (str * str) :=
  [(u"Po", u"Port-channel"); (u"Gi", u"GigabitEthernet");
   (u"Te", u"TenGigabitEthernet"); (u"Fa", u"FastEthernet")].

Fixpoint normalize_loop (items : list (str * str)) (interface : str) : str :=
  match items with
  | [] => interface
  | (prefix, full_name) :: items' =>
      if startswith interface prefix
      then full_name ++ drop (length prefix) interface
      else normalize_loop items' interface
  end.

Definition normalize_interface_name (interface : str) : str :=
  normalize_loop mapping interface.

Definition header_keywords : list str := [u"Mac Address"; u"Vlan"; u"----"].

(** The body of the loop that filters the header, footer and CPU lines
    (lines 95 to 99). *)
Definition data_body (line : str) (data_lines : list str) : result (list str) :=
  if any_in header_keywords line then Ok data_lines
  else if contains u"CPU" line then Ok data_lines
  else Ok (data_lines ++ [line]).

Record mac_state := MacState {
  local_macs : list str;
  remote_macs : list str
}.

(** The body of the loop that separates the lines (lines 106 to 114). *)
Definition mac_body (trunk_check_set : gset str) (line : str) (st : mac_state)
  : result mac_state :=
  let parts := split line in
  if negb (truthy parts) then Ok st
  else
    port ← getitem parts (-1);
    if bool_decide (port ∈ trunk_check_set)
    then Ok (MacState (local_macs st) (remote_macs st ++ [line]))
    else Ok (MacState (local_macs st ++ [line]) (remote_macs st)).

(** The list [output_sections] (lines 117 to 129). *)
Definition mac_output_sections (st : mac_state) : list str :=
  let out := [] in
  let out := out ++ [u"local mac addresses:"] in
  let out :=
    if truthy (local_macs st) then out ++ local_macs st
    else out ++ [u"No local mac addresses found."] in
  let out := out ++ [newline ++ u"remotely learned mac addresses:"] in
  let out :=
    if truthy (remote_macs st) then out ++ remote_macs st
    else out ++ [u"No remotely learned mac addresses found."] in
  out.

Definition process_mac_address_table (raw_mac_output raw_trunk_output : str)
  : result str :=
  trunk_interfaces ← get_trunk_interfaces raw_trunk_output;
  let normalized_trunks := map normalize_interface_name trunk_interfaces in
  let trunk_check_set : gset str :=
    list_to_set trunk_interfaces ∪ list_to_set normalized_trunks in
  let lines :=
    List.filter (λ line, truthy (strip line)) (splitlines raw_mac_output) in
  data_lines ← for_each lines data_body [];
  st ← for_each data_lines (mac_body trunk_check_set) (MacState [] []);
  Ok (join newline (mac_output_sections st)).

(** The local variables [trunk_check_set] (line 86), [lines] (line 89),
    [data_lines] (after the loop of lines 94 to 99) and the two lists
    [local_macs] and [remote_macs] (after the loop of lines 105 to 114), as
    [process_mac_address_table] computes them. *)
Definition trunk_check_set_of (trunk_interfaces : list str) : gset str :=
  let normalized_trunks := map normalize_interface_name trunk_interfaces in
  list_to_set trunk_interfaces ∪ list_to_set normalized_trunks.

Definition mac_lines (raw_mac_output : str) : list str :=
  List.filter (λ line, truthy (strip line)) (splitlines raw_mac_output).

Definition mac_data_lines (raw_mac_output : str) : result (list str) :=
  for_each (mac_lines raw_mac_output) data_body [].

Definition mac_classify (raw_mac_output raw_trunk_output : str)
  : result mac_state :=
  trunk_interfaces ← get_trunk_interfaces raw_trunk_output;
  data_lines ← mac_data_lines raw_mac_output;
  for_each data_lines (mac_body (trunk_check_set_of trunk_interfaces))
    (MacState [] []).

(** ** Cisco Collect.py

    The parts of [run_commands] that compute on text: the name of the file
    a command's output is written to, and the filter applied to the output
    of "show int status".  The two versions of the script in the repository
    have the same text for both. *)

(** [s.replace(old, new)] for a non-empty [old]: the occurrences of [old]
    are taken from the left and do not overlap; [skip] counts the characters
    of a taken occurrence that are still to be passed over. *)
Fixpoint replace_from (skip : nat) (old new s : str) : str :=
  match s with
  | [] => []
  | c :: s' =>
      match skip with
      | S skip' => replace_from skip' old new s'
      | O =>
          if startswith s old
          then new ++ replace_from (pred (length old)) old new s'
          else c :: replace_from 0 old new s'
      end
  end.

(** [s.replace(old, new)]; an empty [old] matches before every character
    and at the end. *)
Definition replace (s old new : str) : str :=
  match old with
  | [] => new ++ flat_map (λ c, c :: new) s
  | _ :: _ => replace_from 0 old new s
  end.

(** The list [commands]. *)
Definition commands : list str :=
  [u"show vlan"; u"show auth sessions"; u"process_cdp_neighbors";
   u"filter_int_status_10mb"; u"process_mac_address_table";
   u"sh running-config"].

(** The dict [special_command_names]. *)
Definition special_command_names : gmap str str :=
  list_to_map
    [(u"filter_int_status_10mb", u"10mb_interfaces");
     (u"process_cdp_neighbors", u"cdp_neighbors_processed");
     (u"process_mac_address_table", u"mac_address_table_processed")].

(** The value of [command_filename] for a command. *)
Definition command_filename (command : str) : str :=
  match special_command_names !! command with
  | Some name => name
  | None => replace (replace (replace command u" " u"_") u"/" u"_") u"|" []
  end.

(** The value of [filename]; [date_str] is the date the script reads from
    the clock. *)
Definition filename (hostname date_str command : str) : str :=
  hostname ++ u"_" ++ date_str ++ u"_" ++ command_filename command ++ u".txt".

(** The output written for the marker [filter_int_status_10mb]. *)
Definition filter_int_status_10mb (raw_output : str) : str :=
  join newline
    (List.filter (λ line, contains u"a-10 " line) (splitlines raw_output)).

(** * The design document

    The definitions below follow the words of the design document; the
    properties compare them with the code above. *)

(** A blank or whitespace-only line. *)
Definition blank (s : str) : Prop := Forall (λ c, is_space c = true) s.

(** ** The line merger, specified *)

(** The merger as the design document words it: blank lines are skipped, a
    line that starts with whitespace extends the accumulating logical line,
    any other line flushes the accumulator and starts a new logical line,
    and the end of the input flushes the accumulator. *)

Definition whitespace_only (line : str) : bool := forallb is_space line.

Definition starts_with_whitespace (line : str) : bool :=
  match line with
  | c :: _ => is_space c
  | [] => false
  end.

Definition flush (acc : str) : list str :=
  match acc with
  | [] => []
  | _ :: _ => [acc]
  end.

Fixpoint merge_spec (lines : list str) (acc : str) : list str :=
  match lines with
  | [] => flush acc
  | line :: lines' =>
      if whitespace_only line then merge_spec lines' acc
      else if starts_with_whitespace line
      then merge_spec lines' (acc ++ u" " ++ strip line)
      else flush acc ++ merge_spec lines' (strip line)
  end.

Definition logical_lines (raw : str) : list str :=
  merge_spec (splitlines raw) [].

(** ** The neighbor report, specified *)

(** The partition and the classification as the design document words
    them: marker lines by prefix, main lines by the first keyword group
    that matches, in a fixed order. *)

Definition top_marker : str := u"Total cdp entries displayed".

Definition is_top (line : str) : bool := startswith line top_marker.

Definition is_bottom (line : str) : bool :=
  startswith line u"Capability Codes:" || startswith line u"Device ID".

Definition is_main (line : str) : bool := negb (is_top line) && negb (is_bottom line).

Inductive category : Set :=
| SavSwitches
| UplinkToDistribution
| WAPs
| PhoneHandsets
| Unsorted.

#[export] Instance category_eq_dec : EqDecision category.
Proof. solve_decision. Defined.

Definition first_match (groups : list (category * (str → bool))) (line : str)
  : category :=
  from_option fst Unsorted (List.find (λ g, snd g line) groups).

Definition keyword_groups : list (category * (str → bool)) :=
  [(SavSwitches, any_in sav_keywords);
   (UplinkToDistribution, any_in uplink_keywords);
   (WAPs, any_in wap_models);
   (PhoneHandsets, contains phone_keyword)].

Definition category_of (line : str) : category :=
  first_match keyword_groups line.

Definition in_category (c : category) (main : list str) : list str :=
  List.filter (λ line, bool_decide (category_of line = c)) main.

(** The section of a category in the record of the five lists. *)
Definition section_of (c : category) (cats : categories) : list str :=
  match c with
  | SavSwitches => sav_switches cats
  | UplinkToDistribution => uplinks cats
  | WAPs => waps cats
  | PhoneHandsets => phone_handsets cats
  | Unsorted => unsorted cats
  end.

(** ** The layout of the neighbor report, specified *)

(** The body of a section: its lines, or its placeholder when it has none. *)
Definition section_body (lines : list str) (placeholder : str) : list str :=
  match lines with
  | [] => [placeholder]
  | _ :: _ => lines
  end.

(** The report as the design document orders it. *)
Definition report_layout (top : str) (bottom : list str) (cats : categories)
  : list str :=
  [top] ++ [[]; []]
  ++ [u"WAPs:"]
  ++ section_body (waps cats) u"No WAP entries found."
  ++ [u"Total number of WAPs: " ++ str_of_nat (length (waps cats))]
  ++ [newline ++ u"Phone Handsets:"]
  ++ section_body (phone_handsets cats) u"No phone handset entries found."
  ++ [u"Total number of Phone Handsets: "
      ++ str_of_nat (length (phone_handsets cats))]
  ++ [newline ++ u"sav switches:"]
  ++ section_body (sav_switches cats) u"No sav switch entries found."
  ++ [newline ++ u"uplink to distribution layer:"]
  ++ section_body (uplinks cats) u"No uplink entries found."
  ++ [newline ++ u"Unsorted:"]
  ++ section_body (unsorted cats) u"No unsorted entries found."
  ++ [[]; []; []]
  ++ section_body bottom u"No bottom special lines found.".

(** One run of [process_cdp_neighbors]: the values of its local variables
    [merged_lines], of the three buckets and of the five category lists,
    and the report it returns. *)
Definition cdp_run (raw : str) (merged : list str) (sp : special_state)
    (cats : categories) : Prop :=
  merge_wrapped_lines_local raw = Ok merged
  ∧ separate_special merged = Ok sp
  ∧ categorize (main_lines sp) = Ok cats
  ∧ process_cdp_neighbors raw = Ok (join newline (cdp_output_sections sp cats)).

(** [int(s)] on the digits that [str(n)] writes. *)
Fixpoint to_string (s : str) : string :=
  match s with
  | [] => EmptyString
  | c :: s' => String (ascii_of_N c) (to_string s')
  end.

Definition nat_of_str (s : str) : option nat :=
  Nat.of_uint <$> NilZero.uint_of_string (to_string s).

(** ** The MAC table report, specified *)

(** The trunk listing, the noise filter and the classification as the
    design document words them. *)

Definition is_header (line : str) : bool := startswith (strip line) u"Port".

(** The lines after the first header row. *)
Fixpoint after_header (lines : list str) : list str :=
  match lines with
  | [] => []
  | line :: lines' => if is_header line then lines' else after_header lines'
  end.

Definition first_token (line : str) : option str := head (split line).
Definition last_token (line : str) : option str := last (split line).

Definition trunk_ids (raw_trunk : str) : list str :=
  omap first_token (after_header (splitlines raw_trunk)).

Definition noise (line : str) : bool :=
  contains u"Mac Address" line || contains u"Vlan" line
  || contains u"----" line || contains u"CPU" line.

Definition is_remote (trunks : gset str) (line : str) : bool :=
  match last_token line with
  | Some port => bool_decide (port ∈ trunks)
  | None => false
  end.

Definition is_local (trunks : gset str) (line : str) : bool :=
  match last_token line with
  | Some port => negb (bool_decide (port ∈ trunks))
  | None => false
  end.

(** One run of [process_mac_address_table]: the values of its local
    variables [trunk_interfaces], [data_lines] and of the two lists, and the
    report it returns. *)
Definition mac_run (raw_mac raw_trunk : str) (trunks data : list str)
    (st : mac_state) : Prop :=
  get_trunk_interfaces raw_trunk = Ok trunks
  ∧ mac_data_lines raw_mac = Ok data
  ∧ mac_classify raw_mac raw_trunk = Ok st
  ∧ process_mac_address_table raw_mac raw_trunk
    = Ok (join newline (mac_output_sections st)).

(** ** Predicates of the further properties *)

(** The token that [split] closes when it meets whitespace or the end. *)
Definition flush_token (cur : str) : list str :=
  if truthy cur then [rev cur] else [].

(** A token has a character and no whitespace. *)
Definition token (t : str) : Prop :=
  t ≠ [] ∧ Forall (λ c, is_space c = false) t.

(** A string without a line boundary of [splitlines]. *)
Definition no_linebreak (s : str) : Prop :=
  Forall (λ c, is_linebreak c = false) s.

(** A string whose first, or last, character exists and is not
    whitespace. *)
Definition word_first (s : str) : bool :=
  match s with
  | c :: _ => negb (is_space c)
  | [] => false
  end.

Definition word_last (s : str) : bool := word_first (rev s).

(** What [join] writes after the first element: every further element
    after a separator. *)
Definition join_rest (sep : str) (l : list str) : str :=
  flat_map (λ x, sep ++ x) l.

(** * Properties *)

(** ** Strings *)

Section strings.

Lemma startswith_spec (s p : str) :
  startswith s p = true ↔ ∃ r, s = p ++ r.
Proof.
  revert s. induction p as [|a p IH]; intros s; simpl.
  - split; [intros _; by exists s | done].
  - destruct s as [|c s].
    + split; [done | intros [r Hr]; discriminate].
    + rewrite andb_true_iff, N.eqb_eq, IH. split.
      * intros [-> [r ->]]. by exists r.
      * intros [r Hr]. injection Hr as -> ->. eauto.
Qed.

Lemma startswith_drop (s p : str) :
  startswith s p = true → s = p ++ drop (length p) s.
Proof.
  intros [r ->]%startswith_spec. by rewrite drop_app_length.
Qed.

Lemma contains_spec (sub s : str) :
  contains sub s = true ↔ ∃ a b, s = a ++ sub ++ b.
Proof.
  induction s as [|c s IH]; simpl; rewrite orb_true_iff, startswith_spec.
  - split.
    + intros [[r Hr] | ?]; [|done]. by exists [], r.
    + intros (a & b & Hab). left. destruct a; [by exists b | done].
  - rewrite IH. split.
    + intros [[r Hr] | (a & b & ->)]; [by exists [], r | by exists (c :: a), b].
    + intros ([|c' a] & b & Hab); [left; by exists b|].
      right. injection Hab as -> ->. eauto.
Qed.

Lemma contains_app (sub a s b : str) :
  contains sub s = true → contains sub (a ++ s ++ b) = true.
Proof.
  rewrite !contains_spec. intros (x & y & ->).
  exists (a ++ x), (y ++ b). by rewrite <- !app_assoc.
Qed.

Lemma lstrip_nil (s : str) : lstrip s = [] ↔ blank s.
Proof.
  unfold blank. induction s as [|c s IH]; simpl.
  - split; [constructor | done].
  - destruct (is_space c) eqn:Hc.
    + rewrite IH. split; [by constructor | by inversion 1].
    + split; [done | inversion 1; congruence].
Qed.

Lemma lstrip_head (s : str) c r : lstrip s = c :: r → is_space c = false.
Proof.
  induction s as [|d s IH]; simpl; [done|].
  destruct (is_space d) eqn:Hd; [done|]. by intros [= <- _].
Qed.

Lemma strip_nil (s : str) : strip s = [] ↔ blank s.
Proof.
  unfold strip, rstrip. split.
  - intros H. apply lstrip_nil.
    destruct (lstrip s) as [|c r] eqn:E; [done|].
    apply lstrip_head in E.
    assert (lstrip (rev (c :: r)) = []) as Hb.
    { destruct (lstrip (rev (c :: r))); [done|].
      simpl in H. by destruct (rev l). }
    apply lstrip_nil in Hb. unfold blank in Hb.
    rewrite Forall_forall in Hb. specialize (Hb c).
    rewrite Hb in E; [done|]. apply list_elem_of_In, in_rev.
    rewrite rev_involutive. by left.
  - intros H. apply lstrip_nil in H. by rewrite H.
Qed.

Lemma truthy_true {A} (l : list A) : truthy l = true ↔ l ≠ [].
Proof. by destruct l. Qed.

Lemma truthy_false {A} (l : list A) : truthy l = false ↔ l = [].
Proof. by destruct l. Qed.

Lemma strip_truthy (s : str) : truthy (strip s) = true ↔ ¬ blank s.
Proof. by rewrite truthy_true, strip_nil. Qed.

Lemma split_from_nil (cur s : str) :
  split_from cur s = [] ↔ cur = [] ∧ blank s.
Proof.
  unfold blank. revert cur. induction s as [|c s IH]; intros cur; simpl.
  - destruct cur; simpl.
    + split; [intros _; split; [done | constructor] | done].
    + split; [done | by intros [? _]].
  - destruct (is_space c) eqn:Hc.
    + destruct cur; simpl.
      * rewrite IH. split; intros [? H]; split; try done.
        -- by constructor.
        -- by inversion H.
      * split; [done | by intros [? _]].
    + rewrite IH. split; [by intros [? _] |].
      intros [_ H]. inversion H; congruence.
Qed.

Lemma split_truthy (s : str) : truthy (split s) = truthy (strip s).
Proof.
  destruct (truthy (strip s)) eqn:E.
  - apply truthy_true. apply strip_truthy in E.
    unfold split. rewrite split_from_nil. by intros [_ ?].
  - apply truthy_false. apply truthy_false, strip_nil in E.
    unfold split. by rewrite split_from_nil.
Qed.

Lemma split_from_sub (cur s t : str) :
  t ∈ split_from cur s → ∃ a b, rev cur ++ s = a ++ t ++ b.
Proof.
  revert cur. induction s as [|c s IH]; intros cur; simpl.
  - destruct cur as [|d cur]; simpl; [by intros ?%elem_of_nil|].
    intros ->%list_elem_of_singleton. exists [], []. simpl.
    by rewrite !app_nil_r.
  - destruct (is_space c).
    + assert (t ∈ split_from [] s → ∃ a b, rev cur ++ c :: s = a ++ t ++ b).
      { intros (a & b & Hab)%IH. simpl in Hab. subst s.
        exists (rev cur ++ c :: a), b. by rewrite <- app_assoc. }
      destruct cur as [|d cur]; simpl; [done|].
      intros [-> | ?]%elem_of_cons; [|auto].
      exists [], (c :: s). by rewrite <- app_assoc.
    + intros (a & b & Hab)%IH. simpl in Hab.
      rewrite <- app_assoc in Hab. simpl in Hab. eauto.
Qed.

Lemma contains_token (k line t : str) :
  t ∈ split line → contains k t = true → contains k line = true.
Proof.
  intros (a & b & Hab)%split_from_sub Hk. simpl in Hab. subst line.
  by apply contains_app.
Qed.

Lemma getitem_first {A} (x : A) (l : list A) : getitem (x :: l) 0 = Ok x.
Proof.
  unfold getitem. cbn [length lookup].
  replace (0 <? 0)%Z with false by done.
  replace ((0 <=? 0)%Z && (0 <? Z.of_nat (S (length l)))%Z) with true; [done|].
  symmetry. apply andb_true_iff. split; [done | apply Z.ltb_lt; lia].
Qed.

Lemma getitem_last {A} (l : list A) (x : A) :
  last l = Some x → getitem l (-1) = Ok x.
Proof.
  intros H. unfold getitem.
  assert (length l ≠ 0%nat) as Hn by (by destruct l).
  replace (-1 <? 0)%Z with true by done.
  replace ((0 <=? -1 + Z.of_nat (length l))%Z
           && (-1 + Z.of_nat (length l) <? Z.of_nat (length l))%Z) with true.
  2:{ symmetry. apply andb_true_iff. split; [apply Z.leb_le | apply Z.ltb_lt]; lia. }
  rewrite last_lookup in H.
  replace (Z.to_nat (-1 + Z.of_nat (length l))) with (pred (length l)) by lia.
  by rewrite H.
Qed.

End strings.

(** ** The line merger *)

Section merger.

Lemma whitespace_only_blank (line : str) :
  whitespace_only line = true ↔ blank line.
Proof.
  unfold whitespace_only, blank. rewrite forallb_forall, Forall_forall.
  by setoid_rewrite list_elem_of_In.
Qed.

Lemma strip_whitespace_only (line : str) :
  truthy (strip line) = negb (whitespace_only line).
Proof.
  destruct (whitespace_only line) eqn:E; simpl.
  - by apply truthy_false, strip_nil, whitespace_only_blank.
  - apply strip_truthy. rewrite <- whitespace_only_blank. congruence.
Qed.

Lemma merge_body_blank line st :
  whitespace_only line = true → merge_body line st = Ok st.
Proof.
  intros H. unfold merge_body. by rewrite strip_whitespace_only, H.
Qed.

Lemma merge_body_continuation line st :
  whitespace_only line = false → starts_with_whitespace line = true →
  merge_body line st
  = Ok (MergeState (merged_lines st) (current_line st ++ u" " ++ strip line)).
Proof.
  intros H1 H2. unfold merge_body. rewrite strip_whitespace_only, H1.
  destruct line as [|c line]; [done|]. rewrite getitem_first.
  simpl in H2. simpl. by rewrite H2.
Qed.

Lemma merge_body_start line st :
  whitespace_only line = false → starts_with_whitespace line = false →
  merge_body line st
  = Ok (MergeState (merged_lines st ++ flush (current_line st)) (strip line)).
Proof.
  intros H1 H2. unfold merge_body. rewrite strip_whitespace_only, H1.
  destruct line as [|c line]; [done|]. rewrite getitem_first.
  simpl in H2. simpl. rewrite H2.
  destruct (current_line st); simpl; by rewrite ?app_nil_r.
Qed.

Lemma for_each_step {A St} (body : A → St → result St) x xs st st' :
  body x st = Ok st' → for_each (x :: xs) body st = for_each xs body st'.
Proof. intros H. cbn [for_each]. by rewrite H. Qed.

Lemma merge_loop lines st :
  ∃ st', for_each lines merge_body st = Ok st'
         ∧ merged_lines st' ++ flush (current_line st')
           = merged_lines st ++ merge_spec lines (current_line st).
Proof.
  revert st. induction lines as [|line lines IH]; intros st.
  - by exists st.
  - cbn [merge_spec]. destruct (whitespace_only line) eqn:H1.
    { rewrite (for_each_step _ _ _ _ _ (merge_body_blank _ st H1)). apply IH. }
    destruct (starts_with_whitespace line) eqn:H2.
    + rewrite (for_each_step _ _ _ _ _ (merge_body_continuation _ st H1 H2)).
      destruct (IH (MergeState (merged_lines st)
                      (current_line st ++ u" " ++ strip line)))
        as (st' & -> & Heq).
      by exists st'.
    + rewrite (for_each_step _ _ _ _ _ (merge_body_start _ st H1 H2)).
      destruct (IH (MergeState (merged_lines st ++ flush (current_line st))
                      (strip line))) as (st' & -> & Heq).
      exists st'. split; [done|]. rewrite Heq. cbn [merged_lines current_line].
      by rewrite app_assoc.
Qed.

Lemma flush_truthy (st : merge_state) :
  (if truthy (current_line st)
   then Ok (merged_lines st ++ [current_line st])
   else Ok (merged_lines st))
  = Ok (merged_lines st ++ flush (current_line st)).
Proof. destruct (current_line st); simpl; by rewrite ?app_nil_r. Qed.

Lemma merge_wrapped_lines_eq raw :
  merge_wrapped_lines raw = Ok (logical_lines raw).
Proof.
  unfold merge_wrapped_lines, logical_lines.
  destruct (merge_loop (splitlines raw) (MergeState [] [])) as (st & -> & Heq).
  simpl. by rewrite flush_truthy, Heq.
Qed.

Lemma merge_wrapped_lines_local_eq raw :
  merge_wrapped_lines_local raw = Ok (logical_lines raw).
Proof. apply merge_wrapped_lines_eq. Qed.

End merger.

(** ** The neighbor report *)

Section neighbor_report.

Lemma separate_body_eq line st :
  separate_body line st =
  Ok (if is_top line then
        SpecialState (Some line) (bottom_lines st) (main_lines st)
      else if is_bottom line then
        SpecialState (top_line st) (bottom_lines st ++ [line]) (main_lines st)
      else
        SpecialState (top_line st) (bottom_lines st) (main_lines st ++ [line])).
Proof.
  unfold separate_body, is_top, is_bottom, top_marker. by repeat case_match.
Qed.

Lemma separate_loop merged st :
  for_each merged separate_body st
  = Ok (SpecialState
          (from_option Some (top_line st) (last (List.filter is_top merged)))
          (bottom_lines st
           ++ List.filter (λ l, negb (is_top l) && is_bottom l) merged)
          (main_lines st ++ List.filter is_main merged)).
Proof.
  revert st. induction merged as [|line merged IH]; intros st.
  - simpl. destruct st. by rewrite !app_nil_r.
  - rewrite (for_each_step _ _ _ _ _ (separate_body_eq line st)), IH.
    unfold is_main. cbn [List.filter].
    destruct (is_top line) eqn:Ht; cbn [negb andb].
    + cbn [top_line bottom_lines main_lines].
      rewrite last_cons. by destruct (last (List.filter is_top merged)).
    + destruct (is_bottom line) eqn:Hb; cbn [negb andb];
        cbn [top_line bottom_lines main_lines];
        by rewrite <- app_assoc.
Qed.

Lemma separate_special_eq merged :
  separate_special merged
  = Ok (SpecialState (last (List.filter is_top merged))
          (List.filter (λ l, negb (is_top l) && is_bottom l) merged)
          (List.filter is_main merged)).
Proof.
  unfold separate_special. rewrite separate_loop. simpl.
  by destruct (last (List.filter is_top merged)).
Qed.

Lemma category_of_cases line :
  category_of line =
    if any_in sav_keywords line then SavSwitches
    else if any_in uplink_keywords line then UplinkToDistribution
    else if any_in wap_models line then WAPs
    else if contains phone_keyword line then PhoneHandsets
    else Unsorted.
Proof.
  unfold category_of, first_match, keyword_groups. cbn [List.find snd].
  by repeat case_match.
Qed.

Lemma categorize_body_eq line st :
  categorize_body line st =
  Ok (match category_of line with
      | SavSwitches =>
          Categories (sav_switches st ++ [line]) (uplinks st) (waps st)
            (phone_handsets st) (unsorted st)
      | UplinkToDistribution =>
          Categories (sav_switches st) (uplinks st ++ [line]) (waps st)
            (phone_handsets st) (unsorted st)
      | WAPs =>
          Categories (sav_switches st) (uplinks st) (waps st ++ [line])
            (phone_handsets st) (unsorted st)
      | PhoneHandsets =>
          Categories (sav_switches st) (uplinks st) (waps st)
            (phone_handsets st ++ [line]) (unsorted st)
      | Unsorted =>
          Categories (sav_switches st) (uplinks st) (waps st)
            (phone_handsets st) (unsorted st ++ [line])
      end).
Proof.
  rewrite category_of_cases. unfold categorize_body.
  by repeat case_match.
Qed.

Lemma categorize_loop main st :
  for_each main categorize_body st
  = Ok (Categories
          (sav_switches st ++ in_category SavSwitches main)
          (uplinks st ++ in_category UplinkToDistribution main)
          (waps st ++ in_category WAPs main)
          (phone_handsets st ++ in_category PhoneHandsets main)
          (unsorted st ++ in_category Unsorted main)).
Proof.
  revert st. induction main as [|line main IH]; intros st.
  - simpl. destruct st. by rewrite !app_nil_r.
  - rewrite (for_each_step _ _ _ _ _ (categorize_body_eq line st)), IH.
    unfold in_category. cbn [List.filter].
    destruct (category_of line); simpl; by rewrite <- ?app_assoc.
Qed.

Lemma categorize_eq main :
  categorize main
  = Ok (Categories (in_category SavSwitches main)
          (in_category UplinkToDistribution main) (in_category WAPs main)
          (in_category PhoneHandsets main) (in_category Unsorted main)).
Proof. unfold categorize. by rewrite categorize_loop. Qed.

End neighbor_report.

(** ** The layout of the neighbor report *)

Section layout.

Lemma truthy_section (out lines : list str) (placeholder : str) :
  (if truthy lines then out ++ lines else out ++ [placeholder])
  = out ++ section_body lines placeholder.
Proof. by destruct lines. Qed.

Lemma cdp_output_sections_layout sp cats :
  (∀ t, top_line sp = Some t → t ≠ []) →
  cdp_output_sections sp cats
  = report_layout
      (from_option id u"Total cdp entries displayed: N/A" (top_line sp))
      (bottom_lines sp) cats.
Proof.
  intros Htop. unfold cdp_output_sections, report_layout.
  rewrite !truthy_section.
  assert ((if truthy_opt (top_line sp)
           then [] ++ [default [] (top_line sp)]
           else [] ++ [u"Total cdp entries displayed: N/A"])
          = [from_option id u"Total cdp entries displayed: N/A" (top_line sp)])
    as ->.
  { destruct (top_line sp) as [[|c t]|] eqn:E; try done.
    by destruct (Htop [] eq_refl). }
  by rewrite <- !app_assoc.
Qed.

Lemma is_top_nonempty line : is_top line = true → line ≠ [].
Proof. by intros H ->. Qed.

Lemma last_filter_elem {A} (p : A → bool) l x :
  last (List.filter p l) = Some x → p x = true ∧ x ∈ l.
Proof.
  intros H. rewrite last_lookup in H.
  apply list_elem_of_lookup_2, list_elem_of_In, filter_In in H.
  destruct H as [H1 H2]. split; [done | by apply list_elem_of_In].
Qed.

Lemma cdp_run_exists raw :
  let merged := logical_lines raw in
  let sp := SpecialState (last (List.filter is_top merged))
              (List.filter (λ l, negb (is_top l) && is_bottom l) merged)
              (List.filter is_main merged) in
  let cats := Categories (in_category SavSwitches (main_lines sp))
                (in_category UplinkToDistribution (main_lines sp))
                (in_category WAPs (main_lines sp))
                (in_category PhoneHandsets (main_lines sp))
                (in_category Unsorted (main_lines sp)) in
  cdp_run raw merged sp cats.
Proof.
  intros merged sp cats.
  assert (merge_wrapped_lines_local raw = Ok merged) as Hm
    by apply merge_wrapped_lines_local_eq.
  assert (separate_special merged = Ok sp) as Hs by apply separate_special_eq.
  assert (categorize (main_lines sp) = Ok cats) as Hc by apply categorize_eq.
  unfold cdp_run. do 3 (split; [done|]).
  unfold process_cdp_neighbors. rewrite Hm. cbn [mbind result_bind].
  unfold separate_special in Hs. rewrite Hs. cbn [mbind result_bind].
  unfold categorize in Hc. by rewrite Hc.
Qed.

Lemma cdp_run_top raw merged sp cats :
  cdp_run raw merged sp cats → ∀ t, top_line sp = Some t → t ≠ [].
Proof.
  intros (_ & Hsp & _) t Ht. rewrite separate_special_eq in Hsp.
  injection Hsp as <-. simpl in Ht.
  apply last_filter_elem in Ht as [Ht _]. by apply is_top_nonempty.
Qed.

Lemma to_string_of_string s : to_string (of_string s) = s.
Proof.
  induction s as [|a s IH]; simpl; [done|].
  by rewrite ascii_N_embedding, IH.
Qed.

Lemma to_uint_nonnil n : Nat.to_uint n ≠ Decimal.Nil.
Proof.
  intros H. pose proof (DecimalNat.Unsigned.to_of (Nat.to_uint n)) as E.
  rewrite DecimalNat.Unsigned.of_to, H in E. discriminate.
Qed.

Lemma nat_of_str_of_nat n : nat_of_str (str_of_nat n) = Some n.
Proof.
  unfold nat_of_str, str_of_nat. rewrite to_string_of_string.
  rewrite NilZero.usu by apply to_uint_nonnil. simpl.
  by rewrite DecimalNat.Unsigned.of_to.
Qed.

End layout.

(** ** The MAC table report *)

Section mac_report.

Lemma trunk_body_eq line st :
  trunk_body line st =
  Ok (if header_found st
      then TrunkState (trunk_list st ++ option_list (first_token line)) true
      else TrunkState (trunk_list st) (is_header line)).
Proof.
  unfold trunk_body, first_token. fold (is_header line).
  destruct st as [tl [|]]; cbn [header_found trunk_list negb].
  - rewrite <- split_truthy. destruct (split line) as [|p parts].
    + simpl. by rewrite app_nil_r.
    + cbn [truthy negb]. by rewrite getitem_first.
  - by destruct (is_header line).
Qed.

Lemma trunk_loop lines st :
  ∃ found,
    for_each lines trunk_body st
    = Ok (TrunkState
            (trunk_list st
             ++ omap first_token
                  (if header_found st then lines else after_header lines))
            found).
Proof.
  revert st. induction lines as [|line lines IH]; intros st.
  - exists (header_found st). destruct st as [tl [|]]; simpl; by rewrite app_nil_r.
  - rewrite (for_each_step _ _ _ _ _ (trunk_body_eq line st)).
    destruct st as [tl [|]]; cbn [header_found trunk_list].
    + destruct (IH (TrunkState (tl ++ option_list (first_token line)) true))
        as [found ->].
      exists found. cbn [header_found trunk_list omap list_omap].
      destruct (first_token line); simpl; by rewrite <- ?app_assoc, ?app_nil_r.
    + destruct (IH (TrunkState tl (is_header line))) as [found ->].
      exists found. cbn [header_found trunk_list after_header].
      by destruct (is_header line).
Qed.

Lemma get_trunk_interfaces_eq raw :
  get_trunk_interfaces raw = Ok (trunk_ids raw).
Proof.
  unfold get_trunk_interfaces, trunk_ids.
  by destruct (trunk_loop (splitlines raw) (TrunkState [] false)) as [? ->].
Qed.

Lemma data_body_eq line data :
  data_body line data = Ok (if noise line then data else data ++ [line]).
Proof.
  unfold data_body, noise, any_in, header_keywords. cbn [existsb].
  rewrite orb_false_r.
  by destruct (contains u"Mac Address" line), (contains u"Vlan" line),
    (contains u"----" line), (contains u"CPU" line).
Qed.

Lemma data_loop lines data :
  for_each lines data_body data
  = Ok (data ++ List.filter (λ l, negb (noise l)) lines).
Proof.
  revert data. induction lines as [|line lines IH]; intros data.
  - simpl. by rewrite app_nil_r.
  - rewrite (for_each_step _ _ _ _ _ (data_body_eq line data)), IH.
    cbn [List.filter]. destruct (noise line); simpl; by rewrite <- ?app_assoc.
Qed.

Lemma mac_data_lines_eq raw :
  mac_data_lines raw = Ok (List.filter (λ l, negb (noise l)) (mac_lines raw)).
Proof. unfold mac_data_lines. by rewrite data_loop. Qed.

Lemma mac_body_eq trunks line st :
  mac_body trunks line st =
  Ok (if is_remote trunks line
      then MacState (local_macs st) (remote_macs st ++ [line])
      else if is_local trunks line
      then MacState (local_macs st ++ [line]) (remote_macs st)
      else st).
Proof.
  unfold mac_body, is_remote, is_local, last_token.
  destruct (split line) as [|p parts] eqn:E; [done|].
  destruct (last (p :: parts)) as [port|] eqn:El.
  - cbn [truthy negb]. rewrite (getitem_last _ _ El). cbn [mbind result_bind].
    by destruct (bool_decide (port ∈ trunks)).
  - by apply last_None in El.
Qed.

Lemma mac_loop trunks lines st :
  for_each lines (mac_body trunks) st
  = Ok (MacState (local_macs st ++ List.filter (is_local trunks) lines)
          (remote_macs st ++ List.filter (is_remote trunks) lines)).
Proof.
  revert st. induction lines as [|line lines IH]; intros st.
  - simpl. destruct st. by rewrite !app_nil_r.
  - rewrite (for_each_step _ _ _ _ _ (mac_body_eq trunks line st)), IH.
    cbn [List.filter]. unfold is_local, is_remote.
    destruct (last_token line) as [port|]; [|done].
    destruct (bool_decide (port ∈ trunks)); simpl; by rewrite <- ?app_assoc.
Qed.

Lemma mac_run_exists raw_mac raw_trunk :
  let trunks := trunk_ids raw_trunk in
  let data := List.filter (λ l, negb (noise l)) (mac_lines raw_mac) in
  let st := MacState (List.filter (is_local (trunk_check_set_of trunks)) data)
              (List.filter (is_remote (trunk_check_set_of trunks)) data) in
  mac_run raw_mac raw_trunk trunks data st.
Proof.
  intros trunks data st.
  assert (mac_classify raw_mac raw_trunk = Ok st) as Hst.
  { unfold mac_classify. rewrite get_trunk_interfaces_eq, mac_data_lines_eq.
    cbn [mbind result_bind]. by rewrite mac_loop. }
  unfold mac_run. rewrite get_trunk_interfaces_eq, mac_data_lines_eq.
  do 3 (split; [done|]).
  unfold mac_classify in Hst. unfold process_mac_address_table.
  rewrite get_trunk_interfaces_eq in Hst |- *.
  cbn [mbind result_bind] in Hst |- *. cbv zeta.
  fold (mac_lines raw_mac). fold (mac_data_lines raw_mac).
  fold (trunk_check_set_of (trunk_ids raw_trunk)).
  destruct (mac_data_lines raw_mac) as [d|e]; [|done].
  cbn [mbind result_bind] in Hst |- *. by rewrite Hst.
Qed.

Lemma data_line_token raw line :
  line ∈ List.filter (λ l, negb (noise l)) (mac_lines raw) →
  ∃ port, last_token line = Some port.
Proof.
  intros H. apply list_elem_of_In, filter_In in H as [H _].
  unfold mac_lines in H. apply filter_In in H as [_ H].
  rewrite <- split_truthy in H. unfold last_token.
  destruct (split line) as [|p parts]; [done|].
  destruct (last (p :: parts)) eqn:E; [eauto | by apply last_None in E].
Qed.

Lemma elem_of_trunk_check_set port trunks :
  port ∈ trunk_check_set_of trunks
  ↔ port ∈ trunks ∨ ∃ t, t ∈ trunks ∧ port = normalize_interface_name t.
Proof.
  unfold trunk_check_set_of. rewrite elem_of_union, !elem_of_list_to_set.
  split; (intros [H|H]; [by left | right]).
  - apply list_elem_of_In, in_map_iff in H as (t & <- & Ht).
    exists t. split; [by apply list_elem_of_In | done].
  - destruct H as (t & Ht & ->). apply list_elem_of_In, in_map.
    by apply list_elem_of_In.
Qed.

Lemma after_header_app pre header rest :
  Forall (λ l, is_header l = false) pre → is_header header = true →
  after_header (pre ++ header :: rest) = rest.
Proof.
  intros Hpre Hh. induction Hpre as [|l pre Hl _ IH]; simpl.
  - by rewrite Hh.
  - by rewrite Hl.
Qed.

Lemma after_header_none lines :
  Forall (λ l, is_header l = false) lines → after_header lines = [].
Proof. induction 1 as [|l ls Hl _ IH]; simpl; [done | by rewrite Hl]. Qed.

End mac_report.

(** * The claims *)

(** C6. For every raw input, [merge_wrapped_lines] returns (and raises
    nothing) the logical lines that the merger of the design document
    produces, [merge_spec]: a blank or whitespace-only physical line is
    skipped; the trimmed content of a physical line that starts with
    whitespace is appended, after one space, to the accumulating logical
    line; any other physical line flushes a non-empty accumulator and starts
    a new logical line with its trimmed content; the end of the input
    flushes the accumulator.  The helper nested in [process_cdp_neighbors]
    returns the same.  Empty input gives the empty list, and the lines
    "Device-A", "  continued", "Device-B" give "Device-A continued",
    "Device-B". *)
Theorem merge_wrapped_lines_correct (raw : str) :
  merge_wrapped_lines raw = Ok (merge_spec (splitlines raw) [])
  ∧ merge_wrapped_lines_local raw = merge_wrapped_lines raw
  ∧ merge_wrapped_lines [] = Ok []
  ∧ splitlines (join newline [u"Device-A"; u"  continued"; u"Device-B"])
    = [u"Device-A"; u"  continued"; u"Device-B"]
  ∧ merge_wrapped_lines
      (join newline [u"Device-A"; u"  continued"; u"Device-B"])
    = Ok [u"Device-A continued"; u"Device-B"].
Proof.
  split; [apply merge_wrapped_lines_eq|].
  split; [reflexivity|].
  split; [reflexivity|].
  split; vm_compute; reflexivity.
Qed.

(** C2, as the code has it. [normalize_interface_name] replaces a leading
    "Po", "Gi", "Te" or "Fa" by "Port-channel", "GigabitEthernet",
    "TenGigabitEthernet" or "FastEthernet" and keeps the rest of the string;
    a string that starts with none of the four is returned unchanged.  So
    "Po1" gives "Port-channel1", "Gi8/1" gives "GigabitEthernet8/1" and
    "Vlan10" is unchanged.  (A long-form name starts with one of the four
    abbreviations and is rewritten as well.) *)
Theorem normalize_interface_name_spec (s r : str) :
  normalize_interface_name (u"Po" ++ r) = u"Port-channel" ++ r
  ∧ normalize_interface_name (u"Gi" ++ r) = u"GigabitEthernet" ++ r
  ∧ normalize_interface_name (u"Te" ++ r) = u"TenGigabitEthernet" ++ r
  ∧ normalize_interface_name (u"Fa" ++ r) = u"FastEthernet" ++ r
  ∧ (startswith s u"Po" = false → startswith s u"Gi" = false →
     startswith s u"Te" = false → startswith s u"Fa" = false →
     normalize_interface_name s = s)
  ∧ normalize_interface_name u"Po1" = u"Port-channel1"
  ∧ normalize_interface_name u"Gi8/1" = u"GigabitEthernet8/1"
  ∧ normalize_interface_name u"Vlan10" = u"Vlan10".
Proof.
  repeat split; try reflexivity.
  intros H1 H2 H3 H4.
  unfold normalize_interface_name, mapping, normalize_loop.
  by rewrite H1, H2, H3, H4.
Qed.

Lemma normalize_interface_name_spec_witness :
  normalize_interface_name u"Vlan10" = u"Vlan10"
  ∧ normalize_interface_name u"Ethernet1/1" = u"Ethernet1/1".
Proof.
  split.
  - apply (normalize_interface_name_spec u"Vlan10" []); reflexivity.
  - apply (normalize_interface_name_spec u"Ethernet1/1" []); reflexivity.
Defined.

(** C2, the claim as stated fails: the long-form names "Port-channel1" and
    "GigabitEthernet8/1" start with "Po" and "Gi", and are not returned
    unchanged. *)
Lemma normalize_canonical_changed :
  normalize_interface_name u"Port-channel1" = u"Port-channelrt-channel1"
  ∧ normalize_interface_name u"Port-channel1" ≠ u"Port-channel1"
  ∧ normalize_interface_name u"GigabitEthernet8/1"
    = u"GigabitEthernetgabitEthernet8/1"
  ∧ normalize_interface_name u"GigabitEthernet8/1" ≠ u"GigabitEthernet8/1".
Proof. repeat split; try reflexivity; by vm_compute. Qed.

Section mac_claims.

Lemma filter_all {A} (p : A → bool) (l : list A) :
  (∀ x, x ∈ l → p x = true) → List.filter p l = l.
Proof.
  induction l as [|x l IH]; intros H; simpl; [done|].
  rewrite (H x) by by left. f_equal. apply IH. intros y Hy. apply H. by right.
Qed.

Lemma filter_none {A} (p : A → bool) (l : list A) :
  (∀ x, x ∈ l → p x = false) → List.filter p l = [].
Proof.
  induction l as [|x l IH]; intros H; simpl; [done|].
  rewrite (H x) by by left. apply IH. intros y Hy. apply H. by right.
Qed.

Lemma elem_of_filter {A} (p : A → bool) (l : list A) x :
  x ∈ List.filter p l ↔ x ∈ l ∧ p x = true.
Proof. by rewrite !list_elem_of_In, filter_In. Qed.

Lemma mac_output_sections_layout st :
  mac_output_sections st
  = [u"local mac addresses:"]
    ++ section_body (local_macs st) u"No local mac addresses found."
    ++ [newline ++ u"remotely learned mac addresses:"]
    ++ section_body (remote_macs st) u"No remotely learned mac addresses found.".
Proof.
  unfold mac_output_sections. rewrite !truthy_section.
  by rewrite <- !app_assoc.
Qed.

Lemma is_local_remote trunks line port :
  last_token line = Some port →
  is_local trunks line = negb (is_remote trunks line)
  ∧ (is_remote trunks line = true ↔ port ∈ trunks).
Proof.
  intros H. unfold is_local, is_remote. rewrite H. split; [done|].
  apply bool_decide_eq_true.
Qed.

Lemma noise_spec line :
  noise line = true
  ↔ contains u"Mac Address" line = true ∨ contains u"Vlan" line = true
    ∨ contains u"----" line = true ∨ contains u"CPU" line = true.
Proof. unfold noise. rewrite !orb_true_iff. tauto. Qed.

End mac_claims.

(** C5. When no line of the trunk listing, once stripped, starts with
    "Port", [get_trunk_interfaces] returns the empty list and raises
    nothing; the membership set of [process_mac_address_table] is then
    empty, and for every MAC table the function returns a report (raises
    nothing) in which every data line is local and none is remote. *)
Theorem headerless_trunk_all_local (raw_trunk : str) :
  Forall (λ line, startswith (strip line) u"Port" = false)
    (splitlines raw_trunk) →
  get_trunk_interfaces raw_trunk = Ok []
  ∧ trunk_check_set_of [] = ∅
  ∧ ∀ raw_mac, ∃ data,
      mac_run raw_mac raw_trunk [] data (MacState data [])
      ∧ mac_output_sections (MacState data [])
        = [u"local mac addresses:"]
          ++ section_body data u"No local mac addresses found."
          ++ [newline ++ u"remotely learned mac addresses:";
              u"No remotely learned mac addresses found."].
Proof.
  intros Hno.
  assert (trunk_ids raw_trunk = []) as Hids.
  { unfold trunk_ids. by rewrite (after_header_none _ Hno). }
  split; [by rewrite get_trunk_interfaces_eq, Hids|].
  split; [done|].
  intros raw_mac. pose proof (mac_run_exists raw_mac raw_trunk) as Hrun.
  cbv zeta in Hrun. rewrite Hids in Hrun.
  set (data := List.filter (λ l, negb (noise l)) (mac_lines raw_mac)) in *.
  exists data.
  assert (List.filter (is_local (trunk_check_set_of [])) data = data) as Hl.
  { apply filter_all. intros line [port Hp]%data_line_token.
    unfold is_local. by rewrite Hp. }
  assert (List.filter (is_remote (trunk_check_set_of [])) data = []) as Hr.
  { apply filter_none. intros line [port Hp]%data_line_token.
    unfold is_remote. by rewrite Hp. }
  rewrite Hl, Hr in Hrun. split; [done|].
  by rewrite mac_output_sections_layout.
Qed.

Lemma headerless_trunk_all_local_witness :
  get_trunk_interfaces u"Gi8/1      on               802.1q         trunking      1"
  = Ok [].
Proof.
  apply (headerless_trunk_all_local
           u"Gi8/1      on               802.1q         trunking      1").
  vm_compute. repeat constructor.
Defined.

(** C10. A line of the MAC table that contains "Mac Address", "Vlan",
    "----" or "CPU" anywhere is in neither section of the report, and is no
    line of the report at all; so is a line whose last token, the interface
    field, contains "Vlan" (a Vlan interface such as "Vlan10"). *)
Theorem noise_lines_excluded (raw_mac raw_trunk line : str) :
  contains u"Mac Address" line = true ∨ contains u"Vlan" line = true
  ∨ contains u"----" line = true ∨ contains u"CPU" line = true
  ∨ (∃ port, last_token line = Some port ∧ contains u"Vlan" port = true) →
  ∃ trunks data st,
    mac_run raw_mac raw_trunk trunks data st
    ∧ (line ∉ data)
    ∧ (line ∉ local_macs st)
    ∧ (line ∉ remote_macs st)
    ∧ (line ∉ mac_output_sections st).
Proof.
  intros H.
  assert (noise line = true) as Hnoise.
  { apply noise_spec. destruct H as [?|[?|[?|[?|(port & Hp & Hv)]]]]; auto.
    right; left. apply (contains_token _ _ port); [|done].
    unfold last_token in Hp. rewrite last_lookup in Hp.
    by apply list_elem_of_lookup_2 in Hp. }
  pose proof (mac_run_exists raw_mac raw_trunk) as Hrun. cbv zeta in Hrun.
  set (trunks := trunk_ids raw_trunk) in *.
  set (data := List.filter (λ l, negb (noise l)) (mac_lines raw_mac)) in *.
  eexists _, _, _. split; [exact Hrun|].
  assert (line ∉ data) as Hdata.
  { unfold data. rewrite elem_of_filter. intros [_ Hn].
    by rewrite Hnoise in Hn. }
  assert (∀ p, line ∉ List.filter p data) as Hf.
  { intros p. rewrite elem_of_filter. by intros [? _]. }
  split; [done|]. split; [apply Hf|]. split; [apply Hf|].
  rewrite mac_output_sections_layout. cbn [local_macs remote_macs].
  rewrite !elem_of_app, !list_elem_of_singleton.
  assert (∀ lines p, line ∈ section_body (List.filter p data) lines
                     → line = lines) as Hs.
  { intros lines p Hin. destruct (List.filter p data) eqn:E; simpl in Hin.
    - by apply list_elem_of_singleton in Hin.
    - rewrite <- E in Hin. by apply Hf in Hin. }
  intros [Hin|[Hin|[Hin|Hin]]]; try apply Hs in Hin; subst line;
    by vm_compute in Hnoise.
Qed.

Lemma noise_lines_excluded_witness :
  ∃ trunks data st,
    mac_run u"  10    0011.2233.4455    DYNAMIC     Vlan10"
      (join newline [u"Port      Mode"; u"Gi8/1     on"]) trunks data st
    ∧ (u"  10    0011.2233.4455    DYNAMIC     Vlan10" ∉ data)
    ∧ (u"  10    0011.2233.4455    DYNAMIC     Vlan10" ∉ local_macs st)
    ∧ (u"  10    0011.2233.4455    DYNAMIC     Vlan10" ∉ remote_macs st)
    ∧ (u"  10    0011.2233.4455    DYNAMIC     Vlan10"
       ∉ mac_output_sections st).
Proof.
  apply noise_lines_excluded.
  do 4 right. exists u"Vlan10". split; vm_compute; reflexivity.
Defined.

(** C1. For every MAC table and trunk listing,
    [process_mac_address_table] returns a report (raises nothing) in which
    a data line is remote exactly when its last whitespace-delimited token is
    in the set of the extracted trunk identifiers and their normalized
    forms, and local otherwise; the two sections keep the order of the data
    lines.  A data line whose last token is "Gi8/1" is in the remote section
    when the trunk listing has a line of first token "Gi8/1" after its "Port"
    header row, and in the local section when the trunk input is empty. *)
Theorem mac_classification (raw_mac raw_trunk : str) :
  ∃ trunks data st,
    mac_run raw_mac raw_trunk trunks data st
    ∧ (∀ port, port ∈ trunk_check_set_of trunks
               ↔ port ∈ trunks
                 ∨ ∃ t, t ∈ trunks ∧ port = normalize_interface_name t)
    ∧ remote_macs st = List.filter (is_remote (trunk_check_set_of trunks)) data
    ∧ local_macs st
      = List.filter (λ l, negb (is_remote (trunk_check_set_of trunks) l)) data
    ∧ mac_output_sections st
      = [u"local mac addresses:"]
        ++ section_body (local_macs st) u"No local mac addresses found."
        ++ [newline ++ u"remotely learned mac addresses:"]
        ++ section_body (remote_macs st)
             u"No remotely learned mac addresses found."
    ∧ (∀ line, line ∈ data →
         ∃ port, last_token line = Some port
           ∧ (line ∈ remote_macs st ↔ port ∈ trunk_check_set_of trunks)
           ∧ (line ∈ local_macs st ↔ port ∉ trunk_check_set_of trunks))
    ∧ (∀ pre header rest entry,
         splitlines raw_trunk = pre ++ header :: rest →
         Forall (λ l, startswith (strip l) u"Port" = false) pre →
         startswith (strip header) u"Port" = true →
         entry ∈ rest → first_token entry = Some u"Gi8/1" →
         u"Gi8/1" ∈ trunks)
    ∧ (∀ line, line ∈ data → last_token line = Some u"Gi8/1" →
         (u"Gi8/1" ∈ trunks → line ∈ remote_macs st ∧ (line ∉ local_macs st))
         ∧ (raw_trunk = [] → line ∈ local_macs st ∧ (line ∉ remote_macs st))).
Proof.
  pose proof (mac_run_exists raw_mac raw_trunk) as Hrun. cbv zeta in Hrun.
  set (trunks := trunk_ids raw_trunk) in *.
  set (data := List.filter (λ l, negb (noise l)) (mac_lines raw_mac)) in *.
  set (S := trunk_check_set_of trunks) in *.
  assert (List.filter (is_local S) data
          = List.filter (λ l, negb (is_remote S l)) data) as Hloc.
  { apply filter_ext_in. intros line [port Hp]%list_elem_of_In%data_line_token.
    by apply (is_local_remote S) in Hp as [-> _]. }
  assert (∀ line, line ∈ data →
            ∃ port, last_token line = Some port
              ∧ (line ∈ List.filter (is_remote S) data ↔ port ∈ S)
              ∧ (line ∈ List.filter (is_local S) data ↔ port ∉ S)) as Hcls.
  { intros line Hin. destruct (data_line_token _ _ Hin) as [port Hp].
    exists port. split; [done|].
    destruct (is_local_remote S _ _ Hp) as [Hl Hr].
    rewrite !elem_of_filter, Hl, negb_true_iff, <- Hr.
    destruct (is_remote S line); intuition congruence. }
  eexists _, _, _. split; [exact Hrun|]. cbn [local_macs remote_macs].
  split; [intros port; apply elem_of_trunk_check_set|].
  split; [done|]. split; [done|].
  split; [apply mac_output_sections_layout|].
  split; [done|].
  split.
  - intros pre header rest entry Hsplit Hpre Hh Hin Hfirst.
    unfold trunks, trunk_ids. rewrite Hsplit, after_header_app by done.
    apply list_elem_of_omap. eauto.
  - intros line Hin Hp. destruct (Hcls line Hin) as (port & Hp' & Hr & Hl).
    rewrite Hp in Hp'. injection Hp' as <-. split.
    + intros Ht. assert (u"Gi8/1" ∈ S) as HS.
      { apply elem_of_trunk_check_set. by left. }
      split; [by apply Hr | rewrite Hl; tauto].
    + intros ->. assert (u"Gi8/1" ∉ S) as HS by (by vm_compute).
      split; [by apply Hl | rewrite Hr; tauto].
Qed.

Lemma mac_classification_witness :
  (∃ st,
     mac_classify u"  10    0011.2233.4455    DYNAMIC     Gi8/1"
       (join newline
          [u"Port        Mode             Encapsulation  Status        Native vlan";
           u"Gi8/1      on               802.1q         trunking      1"])
     = Ok st
     ∧ u"  10    0011.2233.4455    DYNAMIC     Gi8/1" ∈ remote_macs st
     ∧ (u"  10    0011.2233.4455    DYNAMIC     Gi8/1" ∉ local_macs st))
  ∧ (∃ st,
       mac_classify u"  10    0011.2233.4455    DYNAMIC     Gi8/1" [] = Ok st
       ∧ u"  10    0011.2233.4455    DYNAMIC     Gi8/1" ∈ local_macs st
       ∧ (u"  10    0011.2233.4455    DYNAMIC     Gi8/1" ∉ remote_macs st)).
Proof.
  split.
  - destruct (mac_classification
                u"  10    0011.2233.4455    DYNAMIC     Gi8/1"
                (join newline
                   [u"Port        Mode             Encapsulation  Status        Native vlan";
                    u"Gi8/1      on               802.1q         trunking      1"]))
      as (trunks & data & st & (_ & Hd & Hc & _) & _ & _ & _ & _ & _
          & Hunder & Hscen).
    exists st. split; [exact Hc|].
    vm_compute in Hd. injection Hd as <-.
    apply Hscen.
    + vm_compute. constructor.
    + vm_compute. reflexivity.
    + apply (Hunder []
               u"Port        Mode             Encapsulation  Status        Native vlan"
               [u"Gi8/1      on               802.1q         trunking      1"]
               u"Gi8/1      on               802.1q         trunking      1").
      * vm_compute. reflexivity.
      * constructor.
      * vm_compute. reflexivity.
      * constructor.
      * vm_compute. reflexivity.
  - destruct (mac_classification
                u"  10    0011.2233.4455    DYNAMIC     Gi8/1" [])
      as (trunks & data & st & (_ & Hd & Hc & _) & _ & _ & _ & _ & _
          & _ & Hscen).
    exists st. split; [exact Hc|].
    vm_compute in Hd. injection Hd as <-.
    apply Hscen.
    + vm_compute. constructor.
    + vm_compute. reflexivity.
    + reflexivity.
Defined.

Example scenario_B_remote :
  process_mac_address_table u"  10    0011.2233.4455    DYNAMIC     Gi8/1"
    (join newline
       [u"Port        Mode             Encapsulation  Status        Native vlan";
        u"Gi8/1      on               802.1q         trunking      1"])
  = Ok (join newline
          [u"local mac addresses:";
           u"No local mac addresses found.";
           newline ++ u"remotely learned mac addresses:";
           u"  10    0011.2233.4455    DYNAMIC     Gi8/1"]).
Proof. vm_compute. reflexivity. Qed.

Example scenario_B_local :
  process_mac_address_table u"  10    0011.2233.4455    DYNAMIC     Gi8/1" []
  = Ok (join newline
          [u"local mac addresses:";
           u"  10    0011.2233.4455    DYNAMIC     Gi8/1";
           newline ++ u"remotely learned mac addresses:";
           u"No remotely learned mac addresses found."]).
Proof. vm_compute. reflexivity. Qed.

Section coverage.

Lemma categories_perm main :
  main ≡ₚ in_category WAPs main ++ in_category PhoneHandsets main
          ++ in_category SavSwitches main
          ++ in_category UplinkToDistribution main
          ++ in_category Unsorted main.
Proof.
  induction main as [|line main IH]; [done|].
  unfold in_category in *. cbn [List.filter].
  destruct (category_of line); simpl;
    rewrite <- ?Permutation_middle; by constructor.
Qed.

Lemma special_perm merged :
  merged ≡ₚ List.filter is_top merged
            ++ List.filter (λ l, negb (is_top l) && is_bottom l) merged
            ++ List.filter is_main merged.
Proof.
  induction merged as [|line merged IH]; [done|].
  unfold is_main in *. cbn [List.filter].
  destruct (is_top line), (is_bottom line); simpl;
    rewrite <- ?Permutation_middle; by constructor.
Qed.

Lemma last_split {A} (l : list A) :
  ∃ dropped, l = dropped ++ option_list (last l)
             ∧ length dropped = (length l - 1)%nat.
Proof.
  destruct l as [|x l _] using rev_ind.
  - by exists [].
  - exists l. rewrite last_snoc, length_app. simpl. split; [done | lia].
Qed.

Lemma local_remote_perm trunks data :
  (∀ line, line ∈ data → ∃ port, last_token line = Some port) →
  data ≡ₚ List.filter (is_local trunks) data
          ++ List.filter (is_remote trunks) data.
Proof.
  induction data as [|line data IH]; intros H; [done|].
  cbn [List.filter]. destruct (H line) as [port Hp]; [by left|].
  destruct (is_local_remote trunks _ _ Hp) as [-> _].
  destruct (is_remote trunks line); simpl;
    rewrite <- ?Permutation_middle; constructor; apply IH;
    intros l Hl; apply H; by right.
Qed.

End coverage.

(** C3, as the code has it. In the neighbor report the five category
    sections hold the main lines, each main line in exactly one of them, so
    their lengths add up to the number of main lines; the logical lines are
    the main lines, the bottom lines and the lines that start with "Total
    cdp entries displayed", of which the report keeps the last one as its
    top line and leaves out the earlier ones ([dropped], empty when at most
    one logical line starts so).  In the MAC report the local and the remote
    lines are the data lines (the non-blank lines that contain none of
    "Mac Address", "Vlan", "----", "CPU"), each in exactly one of the two
    sections, so the two lengths add up to the number of data lines. *)
Theorem total_coverage (raw_cdp raw_mac raw_trunk : str) :
  (∃ merged sp cats dropped,
     cdp_run raw_cdp merged sp cats
     ∧ (length (waps cats) + length (phone_handsets cats)
        + length (sav_switches cats) + length (uplinks cats)
        + length (unsorted cats) = length (main_lines sp))%nat
     ∧ main_lines sp ≡ₚ waps cats ++ phone_handsets cats ++ sav_switches cats
                        ++ uplinks cats ++ unsorted cats
     ∧ List.filter (λ l, startswith l u"Total cdp entries displayed") merged
       = dropped ++ option_list (top_line sp)
     ∧ length dropped
       = (length (List.filter
                    (λ l, startswith l u"Total cdp entries displayed") merged)
          - 1)%nat
     ∧ merged ≡ₚ dropped ++ option_list (top_line sp)
                 ++ (waps cats ++ phone_handsets cats ++ sav_switches cats
                     ++ uplinks cats ++ unsorted cats)
                 ++ bottom_lines sp)
  ∧ (∃ trunks data st,
       mac_run raw_mac raw_trunk trunks data st
       ∧ data
         = List.filter
             (λ l, negb (contains u"Mac Address" l || contains u"Vlan" l
                         || contains u"----" l || contains u"CPU" l))
             (List.filter (λ l, truthy (strip l)) (splitlines raw_mac))
       ∧ (length (local_macs st) + length (remote_macs st) = length data)%nat
       ∧ data ≡ₚ local_macs st ++ remote_macs st).
Proof.
  split.
  - pose proof (cdp_run_exists raw_cdp) as Hrun. cbv zeta in Hrun.
    set (merged := logical_lines raw_cdp) in *.
    set (main := List.filter is_main merged) in *.
    cbn [main_lines] in Hrun.
    destruct (last_split (List.filter is_top merged)) as (dropped & Hd & Hlen).
    eexists _, _, _, dropped. split; [exact Hrun|].
    cbn [waps phone_handsets sav_switches uplinks unsorted main_lines
           top_line bottom_lines].
    pose proof (categories_perm main) as Hperm.
    split.
    { apply Permutation_length in Hperm. rewrite !length_app in Hperm. lia. }
    split; [done|]. split; [exact Hd|]. split; [exact Hlen|].
    rewrite app_assoc, <- Hd, <- Hperm.
    rewrite (special_perm merged) at 1. fold main.
    apply Permutation_app_head, Permutation_app_comm.
  - pose proof (mac_run_exists raw_mac raw_trunk) as Hrun. cbv zeta in Hrun.
    set (data := List.filter (λ l, negb (noise l)) (mac_lines raw_mac)) in *.
    eexists _, _, _. split; [exact Hrun|].
    cbn [local_macs remote_macs].
    pose proof (local_remote_perm (trunk_check_set_of (trunk_ids raw_trunk))
                  data (data_line_token raw_mac)) as Hperm.
    split; [done|]. split; [|done].
    apply Permutation_length in Hperm. rewrite length_app in Hperm. lia.
Qed.

(** C3, the claim as stated fails when two logical lines start with "Total
    cdp entries displayed": the report keeps the second as its top line and
    the first is in no section of the report. *)
Lemma earlier_top_line_dropped :
  merge_wrapped_lines_local
    (join newline [u"Total cdp entries displayed : 1";
                   u"Total cdp entries displayed : 2"])
  = Ok [u"Total cdp entries displayed : 1"; u"Total cdp entries displayed : 2"]
  ∧ separate_special
      [u"Total cdp entries displayed : 1"; u"Total cdp entries displayed : 2"]
    = Ok (SpecialState (Some u"Total cdp entries displayed : 2") [] [])
  ∧ categorize [] = Ok (Categories [] [] [] [] [])
  ∧ process_cdp_neighbors
      (join newline [u"Total cdp entries displayed : 1";
                     u"Total cdp entries displayed : 2"])
    = Ok (join newline
            (cdp_output_sections
               (SpecialState (Some u"Total cdp entries displayed : 2") [] [])
               (Categories [] [] [] [] [])))
  ∧ (u"Total cdp entries displayed : 1"
     ∉ cdp_output_sections
         (SpecialState (Some u"Total cdp entries displayed : 2") [] [])
         (Categories [] [] [] [] [])).
Proof.
  do 4 (split; [vm_compute; reflexivity|]).
  match goal with
  | |- ?x ∉ ?l => apply (bool_decide_eq_false_1 (x ∈ l))
  end.
  vm_compute. reflexivity.
Qed.

Section precedence.

Lemma any_in_spec keywords line :
  any_in keywords line = true
  ↔ ∃ keyword, keyword ∈ keywords ∧ contains keyword line = true.
Proof.
  unfold any_in. rewrite existsb_exists.
  by setoid_rewrite list_elem_of_In.
Qed.

Lemma elem_of_in_category c main line :
  line ∈ in_category c main ↔ line ∈ main ∧ category_of line = c.
Proof.
  unfold in_category. by rewrite elem_of_filter, bool_decide_eq_true.
Qed.

End precedence.

(** C4, as the code has it. Every main line of the neighbor report is put
    in exactly one category, the first whose keyword group has a keyword
    that is a substring of the line (case-sensitive), in the order: "sav
    switches" (sav01, sav02, sav03, CBS350, and also SAV01, SAV02, SAV03),
    "uplink to distribution layer" (LBDS, BDS, SBDS, HDS, CPDS), "WAPs"
    (C9120AXI, C9130A, C9120A, CW9166I, AIR-AP), "Phone Handsets" (T33),
    else "Unsorted"; a line that matches an earlier group is in no later
    one. *)
Theorem first_match_classification (raw : str) :
  ∃ merged sp cats,
    cdp_run raw merged sp cats
    ∧ (∀ c, section_of c cats
            = List.filter
                (λ line, bool_decide (first_match keyword_groups line = c))
                (main_lines sp))
    ∧ (∀ line c, line ∈ main_lines sp →
         (line ∈ section_of c cats ↔ c = first_match keyword_groups line))
    ∧ (∀ line,
         first_match keyword_groups line =
           if any_in [u"sav01"; u"sav02"; u"sav03"; u"CBS350";
                      u"SAV01"; u"SAV02"; u"SAV03"] line
           then SavSwitches
           else if any_in [u"LBDS"; u"BDS"; u"SBDS"; u"HDS"; u"CPDS"] line
           then UplinkToDistribution
           else if any_in [u"C9120AXI"; u"C9130A"; u"C9120A"; u"CW9166I";
                           u"AIR-AP"] line
           then WAPs
           else if contains u"T33" line then PhoneHandsets
           else Unsorted)
    ∧ (∀ keywords line,
         any_in keywords line = true
         ↔ ∃ keyword a b, keyword ∈ keywords ∧ line = a ++ keyword ++ b).
Proof.
  pose proof (cdp_run_exists raw) as Hrun. cbv zeta in Hrun.
  set (merged := logical_lines raw) in *.
  set (main := List.filter is_main merged) in *.
  cbn [main_lines] in Hrun.
  eexists _, _, _. split; [exact Hrun|]. cbn [main_lines].
  split; [by intros []|].
  split.
  { intros line c Hin.
    assert (section_of c
              (Categories (in_category SavSwitches main)
                 (in_category UplinkToDistribution main)
                 (in_category WAPs main) (in_category PhoneHandsets main)
                 (in_category Unsorted main)) = in_category c main) as ->
      by by destruct c.
    rewrite elem_of_in_category. unfold category_of.
    split; [by intros [_ <-] | by intros ->]. }
  split; [apply category_of_cases|].
  intros keywords line. rewrite any_in_spec.
  setoid_rewrite contains_spec.
  split; [intros (k & Hk & a & b & ->) | intros (k & a & b & Hk & ->)];
    eauto 6.
Qed.

(** C4, the claim as stated fails on a line with an upper-case short name:
    "SAV01 AIR-AP" contains none of sav01, sav02, sav03 and CBS350 and it
    contains the WAP model AIR-AP, and the code puts it in "sav switches". *)
Lemma uppercase_sav_line_is_sav_switch :
  any_in [u"sav01"; u"sav02"; u"sav03"; u"CBS350"] u"SAV01 AIR-AP" = false
  ∧ any_in wap_models u"SAV01 AIR-AP" = true
  ∧ categorize [u"SAV01 AIR-AP"] = Ok (Categories [u"SAV01 AIR-AP"] [] [] [] [])
  ∧ process_cdp_neighbors u"SAV01 AIR-AP"
    = Ok (join newline
            [u"Total cdp entries displayed: N/A"; []; [];
             u"WAPs:"; u"No WAP entries found."; u"Total number of WAPs: 0";
             newline ++ u"Phone Handsets:"; u"No phone handset entries found.";
             u"Total number of Phone Handsets: 0";
             newline ++ u"sav switches:"; u"SAV01 AIR-AP";
             newline ++ u"uplink to distribution layer:";
             u"No uplink entries found.";
             newline ++ u"Unsorted:"; u"No unsorted entries found.";
             []; []; []; u"No bottom special lines found."]).
Proof. repeat split; vm_compute; reflexivity. Qed.

Section placeholders.

Lemma startswith_trans (s p q : str) :
  startswith p q = true → startswith s p = true → startswith s q = true.
Proof.
  rewrite !startswith_spec. intros [r1 ->] [r2 ->].
  exists (r1 ++ r2). by rewrite app_assoc.
Qed.

Lemma process_cdp_neighbors_eq raw merged :
  merge_wrapped_lines_local raw = Ok merged →
  process_cdp_neighbors raw
  = Ok (join newline
          (cdp_output_sections
             (SpecialState (last (List.filter is_top merged))
                (List.filter (λ l, negb (is_top l) && is_bottom l) merged)
                (List.filter is_main merged))
             (Categories
                (in_category SavSwitches (List.filter is_main merged))
                (in_category UplinkToDistribution (List.filter is_main merged))
                (in_category WAPs (List.filter is_main merged))
                (in_category PhoneHandsets (List.filter is_main merged))
                (in_category Unsorted (List.filter is_main merged))))).
Proof.
  rewrite merge_wrapped_lines_local_eq. intros [= <-].
  by destruct (cdp_run_exists raw) as (_ & _ & _ & ->).
Qed.

Lemma no_marker_no_top merged marker :
  startswith top_marker marker = true →
  Forall (λ l, startswith l marker = false) merged →
  List.filter is_top merged = [].
Proof.
  intros Hm Hall. apply filter_none. intros l Hl.
  rewrite Forall_forall in Hall. specialize (Hall l Hl).
  destruct (is_top l) eqn:E; [|done].
  by rewrite (startswith_trans _ _ _ Hm E) in Hall.
Qed.

Lemma two_line_sections a b merged :
  merged = [a; b] ∨ merged = [b; a] →
  is_main a = true → is_main b = true →
  category_of a = SavSwitches → category_of b = WAPs →
  List.filter is_top merged = []
  ∧ List.filter (λ l, negb (is_top l) && is_bottom l) merged = []
  ∧ List.filter is_main merged = merged
  ∧ in_category SavSwitches merged = [a]
  ∧ in_category UplinkToDistribution merged = []
  ∧ in_category WAPs merged = [b]
  ∧ in_category PhoneHandsets merged = []
  ∧ in_category Unsorted merged = [].
Proof.
  intros Hm Ha Hb Hca Hcb.
  assert (is_top a = false ∧ is_bottom a = false) as [Hta Hba].
  { unfold is_main in Ha. by destruct (is_top a), (is_bottom a). }
  assert (is_top b = false ∧ is_bottom b = false) as [Htb Hbb].
  { unfold is_main in Hb. by destruct (is_top b), (is_bottom b). }
  unfold in_category.
  destruct Hm as [-> | ->]; cbn [List.filter];
    rewrite ?Ha, ?Hb, ?Hta, ?Htb, ?Hba, ?Hbb, ?Hca, ?Hcb;
    repeat split; reflexivity.
Qed.

End placeholders.

(** C7. [process_cdp_neighbors] returns a report for every input and
    raises nothing.  When no logical line starts with the marker (the code
    tests "Total cdp entries displayed"; any prefix of it, such as "Total cdp
    entries", excludes as much), the first line of the report is "Total cdp
    entries displayed: N/A".  When the logical lines are two main lines, one
    that contains "CBS350" and one that contains "AIR-AP" and no keyword of
    the two groups tested before the WAP models, the report has the N/A top
    line, the AIR-AP line in the WAPs section with count 1, and the CBS350
    line in the "sav switches" section. *)
Theorem cdp_degrades_to_placeholders (raw : str) :
  (∃ out, process_cdp_neighbors raw = Ok out)
  ∧ (∀ merged marker,
       merge_wrapped_lines_local raw = Ok merged →
       startswith u"Total cdp entries displayed" marker = true →
       Forall (λ l, startswith l marker = false) merged →
       ∃ rest, process_cdp_neighbors raw
               = Ok (u"Total cdp entries displayed: N/A" ++ newline ++ rest))
  ∧ (∀ merged a b,
       merge_wrapped_lines_local raw = Ok merged →
       merged = [a; b] ∨ merged = [b; a] →
       is_main a = true → is_main b = true →
       contains u"CBS350" a = true →
       contains u"AIR-AP" b = true →
       any_in sav_keywords b = false → any_in uplink_keywords b = false →
       process_cdp_neighbors raw
       = Ok (join newline
               [u"Total cdp entries displayed: N/A"; []; [];
                u"WAPs:"; b; u"Total number of WAPs: 1";
                newline ++ u"Phone Handsets:";
                u"No phone handset entries found.";
                u"Total number of Phone Handsets: 0";
                newline ++ u"sav switches:"; a;
                newline ++ u"uplink to distribution layer:";
                u"No uplink entries found.";
                newline ++ u"Unsorted:"; u"No unsorted entries found.";
                []; []; []; u"No bottom special lines found."])).
Proof.
  split; [|split].
  - destruct (cdp_run_exists raw) as (_ & _ & _ & H). eauto.
  - intros merged marker Hmerged Hmarker Hall.
    rewrite (process_cdp_neighbors_eq _ _ Hmerged).
    rewrite (no_marker_no_top _ _ Hmarker Hall).
    rewrite cdp_output_sections_layout by (intros t; cbn; discriminate).
    unfold report_layout. cbn [last top_line from_option app join]. eauto.
  - intros merged a b Hmerged Hm Ha Hb Hcbs Hair Hsav Hup.
    assert (category_of a = SavSwitches) as Hca.
    { rewrite category_of_cases.
      replace (any_in sav_keywords a) with true; [done|].
      symmetry. apply any_in_spec. exists u"CBS350". split; [|done].
      unfold sav_keywords. do 3 right. by left. }
    assert (category_of b = WAPs) as Hcb.
    { rewrite category_of_cases, Hsav, Hup.
      replace (any_in wap_models b) with true; [done|].
      symmetry. apply any_in_spec. exists u"AIR-AP". split; [|done].
      unfold wap_models. do 4 right. by left. }
    rewrite (process_cdp_neighbors_eq _ _ Hmerged).
    destruct (two_line_sections a b merged Hm Ha Hb Hca Hcb)
      as (-> & -> & -> & -> & -> & -> & -> & ->).
    reflexivity.
Qed.

Lemma cdp_degrades_to_placeholders_witness :
  process_cdp_neighbors
    (join newline
       [u"sw-core  Gig 1/0/1   120   S I   CBS350-24   gi1";
        u"ap-hall  Gig 1/0/2   130   T     AIR-AP1815  Gig 0"])
  = Ok (join newline
          [u"Total cdp entries displayed: N/A"; []; [];
           u"WAPs:"; u"ap-hall  Gig 1/0/2   130   T     AIR-AP1815  Gig 0";
           u"Total number of WAPs: 1";
           newline ++ u"Phone Handsets:";
           u"No phone handset entries found.";
           u"Total number of Phone Handsets: 0";
           newline ++ u"sav switches:";
           u"sw-core  Gig 1/0/1   120   S I   CBS350-24   gi1";
           newline ++ u"uplink to distribution layer:";
           u"No uplink entries found.";
           newline ++ u"Unsorted:"; u"No unsorted entries found.";
           []; []; []; u"No bottom special lines found."]).
Proof.
  destruct (cdp_degrades_to_placeholders
              (join newline
                 [u"sw-core  Gig 1/0/1   120   S I   CBS350-24   gi1";
                  u"ap-hall  Gig 1/0/2   130   T     AIR-AP1815  Gig 0"]))
    as (_ & _ & H).
  apply (H [u"sw-core  Gig 1/0/1   120   S I   CBS350-24   gi1";
            u"ap-hall  Gig 1/0/2   130   T     AIR-AP1815  Gig 0"]);
    try (vm_compute; reflexivity).
  left. reflexivity.
Defined.

(** C8. For every input the report of [process_cdp_neighbors] is, in this
    order: the top line (the logical line kept as top line, or the N/A
    placeholder), two blank lines, the "WAPs:" section and its count line,
    the "Phone Handsets:" section and its count line, the "sav switches:"
    section, the "uplink to distribution layer:" section, the "Unsorted:"
    section, three blank lines, and the bottom lines; a section without
    lines holds its placeholder instead. *)
Theorem report_section_order (raw : str) :
  ∃ merged sp cats,
    cdp_run raw merged sp cats
    ∧ process_cdp_neighbors raw
      = Ok (join newline
              ([from_option id u"Total cdp entries displayed: N/A"
                  (top_line sp)]
               ++ [[]; []]
               ++ [u"WAPs:"]
               ++ section_body (waps cats) u"No WAP entries found."
               ++ [u"Total number of WAPs: "
                   ++ str_of_nat (length (waps cats))]
               ++ [newline ++ u"Phone Handsets:"]
               ++ section_body (phone_handsets cats)
                    u"No phone handset entries found."
               ++ [u"Total number of Phone Handsets: "
                   ++ str_of_nat (length (phone_handsets cats))]
               ++ [newline ++ u"sav switches:"]
               ++ section_body (sav_switches cats)
                    u"No sav switch entries found."
               ++ [newline ++ u"uplink to distribution layer:"]
               ++ section_body (uplinks cats) u"No uplink entries found."
               ++ [newline ++ u"Unsorted:"]
               ++ section_body (unsorted cats) u"No unsorted entries found."
               ++ [[]; []; []]
               ++ section_body (bottom_lines sp)
                    u"No bottom special lines found."))
    ∧ top_line sp
      = last (List.filter
                (λ l, startswith l u"Total cdp entries displayed") merged)
    ∧ (∀ placeholder, section_body [] placeholder = [placeholder])
    ∧ (∀ line lines placeholder,
         section_body (line :: lines) placeholder = line :: lines).
Proof.
  pose proof (cdp_run_exists raw) as Hrun. cbv zeta in Hrun.
  eexists _, _, _. split; [exact Hrun|].
  split; [|by cbn [top_line]].
  destruct Hrun as (H1 & H2 & H3 & ->).
  rewrite cdp_output_sections_layout; [done|].
  intros t Ht. cbn [top_line] in Ht.
  apply last_filter_elem in Ht as [Ht _]. by apply is_top_nonempty.
Qed.

(** C9. In the report of [process_cdp_neighbors] the line that follows
    the body of the "WAPs:" section is "Total number of WAPs: N" where N is
    the decimal writing of the number of lines put in the WAPs list, and the
    line that follows the body of the "Phone Handsets:" section is "Total
    number of Phone Handsets: N" with the number of lines put in that list;
    when a list is empty its section holds the placeholder and N is 0. *)
Theorem count_lines_accurate (raw : str) :
  ∃ merged sp cats pre post,
    cdp_run raw merged sp cats
    ∧ cdp_output_sections sp cats
      = pre
        ++ ([u"WAPs:"]
            ++ section_body (waps cats) u"No WAP entries found."
            ++ [u"Total number of WAPs: " ++ str_of_nat (length (waps cats))])
        ++ ([newline ++ u"Phone Handsets:"]
            ++ section_body (phone_handsets cats)
                 u"No phone handset entries found."
            ++ [u"Total number of Phone Handsets: "
                ++ str_of_nat (length (phone_handsets cats))])
        ++ post
    ∧ nat_of_str (str_of_nat (length (waps cats))) = Some (length (waps cats))
    ∧ nat_of_str (str_of_nat (length (phone_handsets cats)))
      = Some (length (phone_handsets cats))
    ∧ waps cats
      = List.filter (λ l, bool_decide (first_match keyword_groups l = WAPs))
          (main_lines sp)
    ∧ phone_handsets cats
      = List.filter
          (λ l, bool_decide (first_match keyword_groups l = PhoneHandsets))
          (main_lines sp)
    ∧ (waps cats = [] →
       section_body (waps cats) u"No WAP entries found."
       = [u"No WAP entries found."]
       ∧ u"Total number of WAPs: " ++ str_of_nat (length (waps cats))
         = u"Total number of WAPs: 0")
    ∧ (phone_handsets cats = [] →
       section_body (phone_handsets cats) u"No phone handset entries found."
       = [u"No phone handset entries found."]
       ∧ u"Total number of Phone Handsets: "
         ++ str_of_nat (length (phone_handsets cats))
         = u"Total number of Phone Handsets: 0").
Proof.
  pose proof (cdp_run_exists raw) as Hrun. cbv zeta in Hrun.
  pose proof (cdp_run_top _ _ _ _ Hrun) as Htop.
  set (merged := logical_lines raw) in *.
  set (sp := SpecialState _ _ _) in *.
  set (cats := Categories _ _ _ _ _) in *.
  exists merged, sp, cats,
    [from_option id u"Total cdp entries displayed: N/A" (top_line sp); []; []],
    ([newline ++ u"sav switches:"]
     ++ section_body (sav_switches cats) u"No sav switch entries found."
     ++ [newline ++ u"uplink to distribution layer:"]
     ++ section_body (uplinks cats) u"No uplink entries found."
     ++ [newline ++ u"Unsorted:"]
     ++ section_body (unsorted cats) u"No unsorted entries found."
     ++ [[]; []; []]
     ++ section_body (bottom_lines sp) u"No bottom special lines found.").
  split; [exact Hrun|].
  split.
  { rewrite (cdp_output_sections_layout _ _ Htop). unfold report_layout.
    by rewrite <- !app_assoc. }
  split; [apply nat_of_str_of_nat|]. split; [apply nat_of_str_of_nat|].
  split; [reflexivity|]. split; [reflexivity|].
  split; intros ->; split; reflexivity.
Qed.

Example scenario_A_counts :
  process_cdp_neighbors
    (join newline
       [u"Total cdp entries displayed : 3";
        u"ap-1  Gig 1/0/2  130  T  C9120AXI  Gig 0";
        u"ap-2";
        u"      Gig 1/0/3  131  T  AIR-AP1815  Gig 0";
        u"SEP0011  Gig 1/0/4  150  H P  T33  Port 1";
        u"Device ID  Local Intrfce  Holdtme  Capability  Platform  Port ID"])
  = Ok (join newline
          [u"Total cdp entries displayed : 3"; []; [];
           u"WAPs:"; u"ap-1  Gig 1/0/2  130  T  C9120AXI  Gig 0";
           u"ap-2 Gig 1/0/3  131  T  AIR-AP1815  Gig 0";
           u"Total number of WAPs: 2";
           newline ++ u"Phone Handsets:";
           u"SEP0011  Gig 1/0/4  150  H P  T33  Port 1";
           u"Total number of Phone Handsets: 1";
           newline ++ u"sav switches:"; u"No sav switch entries found.";
           newline ++ u"uplink to distribution layer:";
           u"No uplink entries found.";
           newline ++ u"Unsorted:"; u"No unsorted entries found.";
           []; []; [];
           u"Device ID  Local Intrfce  Holdtme  Capability  Platform  Port ID"]).
Proof. vm_compute. reflexivity. Qed.

(** * Further properties of the code *)

(** ** Splitting, once more *)

Section words.

Lemma lstrip_decomp (s : str) : ∃ sp, s = sp ++ lstrip s ∧ blank sp.
Proof.
  induction s as [|c s (sp & IH & Hsp)]; simpl.
  - exists []. split; [done | constructor].
  - destruct (is_space c) eqn:Hc.
    + exists (c :: sp). split; [by rewrite IH at 1 | by constructor].
    + exists []. split; [done | constructor].
Qed.

Lemma blank_rev (s : str) : blank s → blank (rev s).
Proof.
  unfold blank. rewrite !Forall_forall. intros H c Hc. apply H.
  by apply list_elem_of_In, in_rev, list_elem_of_In.
Qed.

Lemma rstrip_decomp (s : str) : ∃ sp, s = rstrip s ++ sp ∧ blank sp.
Proof.
  destruct (lstrip_decomp (rev s)) as (sp & H & Hsp).
  exists (rev sp). split; [|by apply blank_rev].
  unfold rstrip. rewrite <- rev_app_distr, <- H. by rewrite rev_involutive.
Qed.

Lemma split_from_blank (cur sp : str) :
  blank sp → split_from cur sp = flush_token cur.
Proof.
  intros H. revert cur. induction H as [|c sp Hc _ IH]; intros cur; simpl.
  - done.
  - rewrite Hc, IH. unfold flush_token. by destruct cur.
Qed.

Lemma split_from_space (cur : str) c s :
  is_space c = true → split_from cur (c :: s) = flush_token cur ++ split s.
Proof. intros Hc. simpl. rewrite Hc. unfold flush_token. by destruct cur. Qed.

Lemma split_from_app_space (cur a : str) c b :
  is_space c = true →
  split_from cur (a ++ c :: b) = split_from cur a ++ split b.
Proof.
  intros Hc. revert cur. induction a as [|x a IH]; intros cur.
  - rewrite app_nil_l, split_from_space by done. simpl. by destruct cur.
  - simpl. destruct (is_space x); [|apply IH].
    destruct (truthy cur); simpl; by rewrite IH.
Qed.

Lemma split_from_app_blank (cur a sp : str) :
  blank sp → split_from cur (a ++ sp) = split_from cur a.
Proof.
  intros H. destruct H as [|c sp Hc Hsp]; [by rewrite app_nil_r|].
  rewrite split_from_app_space by done. unfold split.
  rewrite (split_from_blank [] sp Hsp). by rewrite app_nil_r.
Qed.

Lemma split_blank_app (sp s : str) : blank sp → split (sp ++ s) = split s.
Proof.
  intros H. induction H as [|c sp Hc _ IH]; [done|].
  unfold split in *. simpl. by rewrite Hc.
Qed.

Lemma split_strip (s : str) : split (strip s) = split s.
Proof.
  destruct (lstrip_decomp s) as (sp1 & H1 & Hsp1).
  destruct (rstrip_decomp (lstrip s)) as (sp2 & H2 & Hsp2).
  unfold strip. rewrite H1 at 2. rewrite split_blank_app by done.
  rewrite H2 at 2. unfold split. by rewrite split_from_app_blank.
Qed.

Lemma split_app_space (a b : str) c :
  is_space c = true → split (a ++ c :: b) = split a ++ split b.
Proof. apply split_from_app_space. Qed.

Lemma split_from_tokens (cur s : str) :
  Forall (λ c, is_space c = false) cur →
  Forall token (split_from cur s).
Proof.
  revert cur. induction s as [|c s IH]; intros cur Hcur; simpl.
  - destruct cur as [|d cur]; simpl; [constructor|].
    repeat constructor.
    + intros H%(f_equal (@length N)). rewrite length_app in H. simpl in H. lia.
    + rewrite Forall_forall in *. intros x Hx. apply Hcur.
      apply list_elem_of_In, (in_rev (d :: cur)). by apply list_elem_of_In.
  - destruct (is_space c) eqn:Hc; [|apply IH; by constructor].
    destruct cur as [|d cur]; simpl; [apply IH; constructor|].
    constructor; [|apply IH; constructor]. split.
    + intros H%(f_equal (@length N)). rewrite length_app in H. simpl in H. lia.
    + rewrite Forall_forall in *. intros x Hx. apply Hcur.
      apply list_elem_of_In, (in_rev (d :: cur)). by apply list_elem_of_In.
Qed.

Lemma split_tokens (s : str) : Forall token (split s).
Proof. apply split_from_tokens. constructor. Qed.

End words.

(** ** The trunk listing, once more *)

Section trunk_listing.

Lemma first_token_length (lines : list str) :
  length (omap first_token lines)
  = length (List.filter (λ l, truthy (strip l)) lines).
Proof.
  induction lines as [|l lines IH]; [done|].
  cbn [omap list_omap List.filter]. rewrite <- split_truthy.
  unfold first_token at 1. destruct (split l); simpl; by rewrite IH.
Qed.

Lemma first_token_token line t : first_token line = Some t → token t.
Proof.
  unfold first_token. intros H.
  pose proof (split_tokens line) as Ht.
  destruct (split line) as [|x l]; [done|].
  injection H as <-. by inversion Ht.
Qed.

Lemma is_header_nonblank line : is_header line = true → truthy (strip line) = true.
Proof. unfold is_header. by destruct (strip line). Qed.

Lemma after_header_filter (lines : list str) :
  after_header (List.filter (λ l, truthy (strip l)) lines)
  = List.filter (λ l, truthy (strip l)) (after_header lines).
Proof.
  induction lines as [|l lines IH]; [done|]. cbn [List.filter after_header].
  destruct (is_header l) eqn:Hh.
  - rewrite (is_header_nonblank _ Hh). simpl. by rewrite Hh.
  - destruct (truthy (strip l)); [|done]. simpl. by rewrite Hh.
Qed.

Lemma first_token_filter (lines : list str) :
  omap first_token (List.filter (λ l, truthy (strip l)) lines)
  = omap first_token lines.
Proof.
  induction lines as [|l lines IH]; [done|].
  cbn [List.filter]. destruct (truthy (strip l)) eqn:E.
  - cbn [omap list_omap]. by rewrite IH.
  - assert (first_token l = None) as Hnone.
    { rewrite <- split_truthy in E. unfold first_token.
      by destruct (split l). }
    cbn [omap list_omap]. by rewrite Hnone.
Qed.

End trunk_listing.

(** X1. When the trunk listing has a header row (a line that, stripped,
    starts with "Port"), [get_trunk_interfaces] returns, in order, the first
    whitespace-delimited token of every non-blank line after the first header
    row, and nothing of the lines before it or of the header row itself;
    there are as many identifiers as non-blank lines after the header. *)
Theorem trunk_interfaces_after_header (raw : str) (pre rest : list str)
    (header : str) :
  splitlines raw = pre ++ header :: rest →
  Forall (λ l, startswith (strip l) u"Port" = false) pre →
  startswith (strip header) u"Port" = true →
  get_trunk_interfaces raw = Ok (omap (λ l, head (split l)) rest)
  ∧ length (omap (λ l, head (split l)) rest)
    = length (List.filter (λ l, truthy (strip l)) rest).
Proof.
  intros Hsplit Hpre Hh. split; [|apply first_token_length].
  rewrite get_trunk_interfaces_eq. unfold trunk_ids.
  by rewrite Hsplit, after_header_app.
Qed.

Lemma trunk_interfaces_after_header_witness :
  get_trunk_interfaces
    (join newline
       [u"";
        u"Port        Mode             Encapsulation  Status        Native vlan";
        u"Gi7/0/2     on               802.1q         trunking      1";
        u"Gi7/0/8     on               802.1q         trunking      1";
        u"Gi8/1      on               802.1q         trunking      1";
        u"";
        u"Po1       on               802.1q         trunking      1"])
  = Ok [u"Gi7/0/2"; u"Gi7/0/8"; u"Gi8/1"; u"Po1"].
Proof.
  apply (trunk_interfaces_after_header _ [u""]
           [u"Gi7/0/2     on               802.1q         trunking      1";
            u"Gi7/0/8     on               802.1q         trunking      1";
            u"Gi8/1      on               802.1q         trunking      1";
            u"";
            u"Po1       on               802.1q         trunking      1"]
           u"Port        Mode             Encapsulation  Status        Native vlan").
  - vm_compute. reflexivity.
  - repeat constructor.
  - vm_compute. reflexivity.
Defined.

(** X2. Every identifier that [get_trunk_interfaces] returns has at least
    one character and no whitespace character. *)
Theorem trunk_interfaces_are_tokens (raw : str) :
  ∃ ids,
    get_trunk_interfaces raw = Ok ids
    ∧ Forall (λ id, id ≠ [] ∧ Forall (λ c, is_space c = false) id) ids.
Proof.
  exists (trunk_ids raw). split; [apply get_trunk_interfaces_eq|].
  unfold trunk_ids. apply Forall_forall. intros id Hid.
  apply list_elem_of_omap in Hid as (line & _ & Hline).
  by apply first_token_token in Hline.
Qed.

(** ** Normalization and the membership set, once more *)

Section membership.

Lemma normalize_cases (s : str) :
  (startswith s u"Po" = false ∧ startswith s u"Gi" = false
   ∧ startswith s u"Te" = false ∧ startswith s u"Fa" = false
   ∧ normalize_interface_name s = s)
  ∨ ∃ r,
      (s = u"Po" ++ r ∧ normalize_interface_name s = u"Port-channel" ++ r)
      ∨ (s = u"Gi" ++ r
         ∧ normalize_interface_name s = u"GigabitEthernet" ++ r)
      ∨ (s = u"Te" ++ r
         ∧ normalize_interface_name s = u"TenGigabitEthernet" ++ r)
      ∨ (s = u"Fa" ++ r ∧ normalize_interface_name s = u"FastEthernet" ++ r).
Proof.
  destruct (startswith s u"Po") eqn:H1.
  { right. apply startswith_spec in H1 as [r ->]. exists r. by left. }
  destruct (startswith s u"Gi") eqn:H2.
  { right. apply startswith_spec in H2 as [r ->]. exists r. right. by left. }
  destruct (startswith s u"Te") eqn:H3.
  { right. apply startswith_spec in H3 as [r ->]. exists r.
    do 2 right. by left. }
  destruct (startswith s u"Fa") eqn:H4.
  { right. apply startswith_spec in H4 as [r ->]. exists r. by do 3 right. }
  left. do 4 (split; [done|]).
  unfold normalize_interface_name, mapping, normalize_loop.
  by rewrite H1, H2, H3, H4.
Qed.

Lemma normalize_long_or_same (s : str) :
  normalize_interface_name s = s
  ∨ startswith (normalize_interface_name s) u"Port-channel" = true
  ∨ startswith (normalize_interface_name s) u"GigabitEthernet" = true
  ∨ startswith (normalize_interface_name s) u"TenGigabitEthernet" = true
  ∨ startswith (normalize_interface_name s) u"FastEthernet" = true.
Proof.
  destruct (normalize_cases s)
    as [(_ & _ & _ & _ & H)|[r [[_ H]|[[_ H]|[[_ H]|[_ H]]]]]];
    rewrite H; auto.
Qed.

Lemma trunk_check_set_ext (ids1 ids2 : list str) :
  (∀ id, id ∈ ids1 ↔ id ∈ ids2) →
  trunk_check_set_of ids1 = trunk_check_set_of ids2.
Proof.
  intros H. apply set_eq. intros port. rewrite !elem_of_trunk_check_set.
  split; (intros [Hp | (t & Ht & ->)]; [left | right; exists t]);
    try split; try done; by apply H.
Qed.

Lemma trunk_check_set_mono (ids1 ids2 : list str) port :
  (∀ id, id ∈ ids1 → id ∈ ids2) →
  port ∈ trunk_check_set_of ids1 → port ∈ trunk_check_set_of ids2.
Proof.
  intros H. rewrite !elem_of_trunk_check_set.
  intros [Hp | (t & Ht & ->)]; [left | right; exists t]; auto.
Qed.

Lemma process_mac_address_table_eq raw_mac raw_trunk ids :
  get_trunk_interfaces raw_trunk = Ok ids →
  let data := List.filter (λ l, negb (noise l)) (mac_lines raw_mac) in
  let st := MacState (List.filter (is_local (trunk_check_set_of ids)) data)
              (List.filter (is_remote (trunk_check_set_of ids)) data) in
  mac_classify raw_mac raw_trunk = Ok st
  ∧ process_mac_address_table raw_mac raw_trunk
    = Ok (join newline (mac_output_sections st)).
Proof.
  rewrite get_trunk_interfaces_eq. intros [= <-].
  by destruct (mac_run_exists raw_mac raw_trunk) as (_ & _ & ? & ?).
Qed.

End membership.

(** X3. [normalize_interface_name] never maps two different identifiers
    to the same name. *)
Theorem normalize_interface_name_injective (a b : str) :
  normalize_interface_name a = normalize_interface_name b ↔ a = b.
Proof.
  split; [|by intros ->]. intros H.
  destruct (normalize_cases a)
    as [(A1 & A2 & A3 & A4 & Ha)|[ra [[-> Ha]|[[-> Ha]|[[-> Ha]|[-> Ha]]]]]];
  destruct (normalize_cases b)
    as [(B1 & B2 & B3 & B4 & Hb)|[rb [[-> Hb]|[[-> Hb]|[[-> Hb]|[-> Hb]]]]]];
  rewrite Ha, Hb in H; try discriminate H;
    try (by apply app_inv_head in H; subst);
    try (subst a; discriminate); try (subst b; discriminate); done.
Qed.

(** X4. The membership set of [process_mac_address_table] only expands
    abbreviations: a data line whose last token is not itself an identifier
    of the trunk listing and does not start with a long-form prefix is
    local, whatever the listing holds. *)
Theorem unlisted_short_port_is_local (raw_mac raw_trunk : str) :
  ∃ trunks data st,
    mac_run raw_mac raw_trunk trunks data st
    ∧ ∀ line port,
        line ∈ data → last_token line = Some port → port ∉ trunks →
        startswith port u"Port-channel" = false →
        startswith port u"GigabitEthernet" = false →
        startswith port u"TenGigabitEthernet" = false →
        startswith port u"FastEthernet" = false →
        line ∈ local_macs st ∧ (line ∉ remote_macs st).
Proof.
  pose proof (mac_run_exists raw_mac raw_trunk) as Hrun. cbv zeta in Hrun.
  eexists _, _, _. split; [exact Hrun|]. cbn [local_macs remote_macs].
  intros line port Hin Hp Hnot H1 H2 H3 H4.
  assert (port ∉ trunk_check_set_of (trunk_ids raw_trunk)) as Hset.
  { rewrite elem_of_trunk_check_set. intros [?|(t & Ht & ->)]; [done|].
    destruct (normalize_long_or_same t) as [E|[E|[E|[E|E]]]];
      [rewrite E in Hnot; done | congruence..]. }
  destruct (is_local_remote (trunk_check_set_of (trunk_ids raw_trunk))
              _ _ Hp) as [Hl Hr].
  rewrite (elem_of_filter (is_local _)), (elem_of_filter (is_remote _)), Hl.
  destruct (is_remote (trunk_check_set_of (trunk_ids raw_trunk)) line).
  - exfalso. by apply Hset, Hr.
  - split; [split; [exact Hin | reflexivity] | by intros [_ ?]].
Qed.

Lemma unlisted_short_port_is_local_witness :
  ∃ st,
    mac_classify u"  10    0011.2233.4455    DYNAMIC     Gi8/1"
      (join newline [u"Port                Mode";
                     u"GigabitEthernet8/1  on"])
    = Ok st
    ∧ u"  10    0011.2233.4455    DYNAMIC     Gi8/1" ∈ local_macs st.
Proof.
  destruct (unlisted_short_port_is_local
              u"  10    0011.2233.4455    DYNAMIC     Gi8/1"
              (join newline [u"Port                Mode";
                             u"GigabitEthernet8/1  on"]))
    as (trunks & data & st & (Ht & Hd & Hc & _) & H).
  exists st. split; [exact Hc|].
  vm_compute in Ht. injection Ht as <-.
  vm_compute in Hd. injection Hd as <-.
  apply (H _ u"Gi8/1"); try (vm_compute; reflexivity).
  - vm_compute. constructor.
  - match goal with
    | |- ?x ∉ ?l => apply (bool_decide_eq_false_1 (x ∈ l))
    end.
    vm_compute. reflexivity.
Defined.

(** X5. The report of [process_mac_address_table] depends on the trunk
    listing only through the set of its identifiers: two listings with the
    same identifiers, in any order and with any repetition, give the same
    report for every MAC table. *)
Theorem trunk_order_and_repetition_irrelevant
    (raw_mac raw_trunk1 raw_trunk2 : str) (ids1 ids2 : list str) :
  get_trunk_interfaces raw_trunk1 = Ok ids1 →
  get_trunk_interfaces raw_trunk2 = Ok ids2 →
  (∀ id, id ∈ ids1 ↔ id ∈ ids2) →
  process_mac_address_table raw_mac raw_trunk1
  = process_mac_address_table raw_mac raw_trunk2.
Proof.
  intros H1 H2 Hsame.
  destruct (process_mac_address_table_eq raw_mac _ _ H1) as [_ ->].
  destruct (process_mac_address_table_eq raw_mac _ _ H2) as [_ ->].
  by rewrite (trunk_check_set_ext _ _ Hsame).
Qed.

Lemma trunk_order_and_repetition_irrelevant_witness :
  process_mac_address_table u"  10    0011.2233.4455    DYNAMIC     Gi8/1"
    (join newline [u"Port   Mode"; u"Gi8/1  on"; u"Po1    on"])
  = process_mac_address_table u"  10    0011.2233.4455    DYNAMIC     Gi8/1"
      (join newline [u"Port   Vlans allowed on trunk"; u"Po1    1-4094";
                     u"Gi8/1  1-4094"; u"Po1    1-4094"]).
Proof.
  apply (trunk_order_and_repetition_irrelevant _ _ _
           [u"Gi8/1"; u"Po1"] [u"Po1"; u"Gi8/1"; u"Po1"]).
  - vm_compute. reflexivity.
  - vm_compute. reflexivity.
  - intros id. rewrite !list_elem_of_In. simpl. tauto.
Defined.

(** X6. A longer trunk listing can only move data lines from the local
    section to the remote section: when every identifier of one listing is
    an identifier of another, every line that is remote with the first is
    remote with the second, and every line that is local with the second is
    local with the first. *)
Theorem more_trunks_more_remote
    (raw_mac raw_trunk1 raw_trunk2 : str) (ids1 ids2 : list str) :
  get_trunk_interfaces raw_trunk1 = Ok ids1 →
  get_trunk_interfaces raw_trunk2 = Ok ids2 →
  (∀ id, id ∈ ids1 → id ∈ ids2) →
  ∃ st1 st2,
    mac_classify raw_mac raw_trunk1 = Ok st1
    ∧ mac_classify raw_mac raw_trunk2 = Ok st2
    ∧ (∀ line, line ∈ remote_macs st1 → line ∈ remote_macs st2)
    ∧ (∀ line, line ∈ local_macs st2 → line ∈ local_macs st1).
Proof.
  intros H1 H2 Hsub.
  destruct (process_mac_address_table_eq raw_mac _ _ H1) as [Hc1 _].
  destruct (process_mac_address_table_eq raw_mac _ _ H2) as [Hc2 _].
  eexists _, _. split; [exact Hc1|]. split; [exact Hc2|].
  cbn [local_macs remote_macs].
  split; intros line;
    rewrite (elem_of_filter (is_remote _)) || rewrite (elem_of_filter (is_local _));
    rewrite (elem_of_filter (is_remote _)) || rewrite (elem_of_filter (is_local _));
    intros [Hin Hline]; (split; [exact Hin|]);
    destruct (data_line_token _ _ Hin) as [port Hp];
    unfold is_remote, is_local in *; rewrite Hp in *.
  - apply bool_decide_eq_true. apply bool_decide_eq_true in Hline.
    by apply (trunk_check_set_mono ids1).
  - apply negb_true_iff, bool_decide_eq_false.
    apply negb_true_iff, bool_decide_eq_false in Hline.
    intros Hin1. by apply Hline, (trunk_check_set_mono ids1).
Qed.

Lemma more_trunks_more_remote_witness :
  ∃ st1 st2,
    mac_classify
      (join newline [u"  10    0011.2233.4455    DYNAMIC     Gi8/1";
                     u"  10    0011.2233.4466    DYNAMIC     Gi8/2"])
      (join newline [u"Port   Mode"; u"Gi8/1  on"]) = Ok st1
    ∧ mac_classify
        (join newline [u"  10    0011.2233.4455    DYNAMIC     Gi8/1";
                       u"  10    0011.2233.4466    DYNAMIC     Gi8/2"])
        (join newline [u"Port   Mode"; u"Gi8/1  on"; u"Gi8/2  on"]) = Ok st2
    ∧ (∀ line, line ∈ remote_macs st1 → line ∈ remote_macs st2)
    ∧ (∀ line, line ∈ local_macs st2 → line ∈ local_macs st1).
Proof.
  apply (more_trunks_more_remote _ _ _ [u"Gi8/1"] [u"Gi8/1"; u"Gi8/2"]).
  - vm_compute. reflexivity.
  - vm_compute. reflexivity.
  - intros id. rewrite !list_elem_of_In. simpl. tauto.
Defined.

(** ** Blank lines *)

Section blank_lines.

Lemma merge_spec_filter (lines : list str) (acc : str) :
  merge_spec (List.filter (λ l, truthy (strip l)) lines) acc
  = merge_spec lines acc.
Proof.
  revert acc. induction lines as [|l lines IH]; intros acc; [done|].
  cbn [List.filter merge_spec]. rewrite strip_whitespace_only.
  destruct (whitespace_only l) eqn:E; cbn [negb]; [apply IH|].
  cbn [merge_spec]. rewrite E.
  destruct (starts_with_whitespace l); by rewrite IH.
Qed.

Lemma trunk_ids_filter (raw1 raw2 : str) :
  List.filter (λ l, truthy (strip l)) (splitlines raw1)
  = List.filter (λ l, truthy (strip l)) (splitlines raw2) →
  trunk_ids raw1 = trunk_ids raw2.
Proof.
  intros H. unfold trunk_ids.
  rewrite <- (first_token_filter (after_header (splitlines raw1))).
  rewrite <- (first_token_filter (after_header (splitlines raw2))).
  by rewrite <- !after_header_filter, H.
Qed.

End blank_lines.

(** X7. Blank and whitespace-only lines never change a report: two inputs
    with the same non-blank physical lines give the same neighbor report,
    and two MAC tables and two trunk listings with the same non-blank lines
    give the same MAC report. *)
Theorem blank_lines_immaterial
    (raw_cdp1 raw_cdp2 raw_mac1 raw_mac2 raw_trunk1 raw_trunk2 : str) :
  List.filter (λ l, truthy (strip l)) (splitlines raw_cdp1)
  = List.filter (λ l, truthy (strip l)) (splitlines raw_cdp2) →
  List.filter (λ l, truthy (strip l)) (splitlines raw_mac1)
  = List.filter (λ l, truthy (strip l)) (splitlines raw_mac2) →
  List.filter (λ l, truthy (strip l)) (splitlines raw_trunk1)
  = List.filter (λ l, truthy (strip l)) (splitlines raw_trunk2) →
  process_cdp_neighbors raw_cdp1 = process_cdp_neighbors raw_cdp2
  ∧ get_trunk_interfaces raw_trunk1 = get_trunk_interfaces raw_trunk2
  ∧ process_mac_address_table raw_mac1 raw_trunk1
    = process_mac_address_table raw_mac2 raw_trunk2.
Proof.
  intros Hcdp Hmac Htrunk. split; [|split].
  - rewrite (process_cdp_neighbors_eq raw_cdp1 _
               (merge_wrapped_lines_local_eq raw_cdp1)).
    rewrite (process_cdp_neighbors_eq raw_cdp2 _
               (merge_wrapped_lines_local_eq raw_cdp2)).
    assert (logical_lines raw_cdp1 = logical_lines raw_cdp2) as ->; [|done].
    unfold logical_lines.
    by rewrite <- (merge_spec_filter (splitlines raw_cdp1)), Hcdp,
      merge_spec_filter.
  - by rewrite !get_trunk_interfaces_eq, (trunk_ids_filter _ _ Htrunk).
  - destruct (process_mac_address_table_eq raw_mac1 raw_trunk1 _
                (get_trunk_interfaces_eq raw_trunk1)) as [_ ->].
    destruct (process_mac_address_table_eq raw_mac2 raw_trunk2 _
                (get_trunk_interfaces_eq raw_trunk2)) as [_ ->].
    unfold mac_lines. by rewrite Hmac, (trunk_ids_filter _ _ Htrunk).
Qed.

Lemma blank_lines_immaterial_witness :
  process_cdp_neighbors
    (join newline [u"sw1  Gig 1/0/1  120  S I  CBS350-24  gi1"; u"   ";
                   u""; u"ap7  Gig 1/0/2  130  T  AIR-AP1815  Gig 0"])
  = process_cdp_neighbors
      (join newline [u"sw1  Gig 1/0/1  120  S I  CBS350-24  gi1";
                     u"ap7  Gig 1/0/2  130  T  AIR-AP1815  Gig 0"; u""])
  ∧ get_trunk_interfaces (join newline [u""; u"Port  Mode"; u" "; u"Gi8/1  on"])
    = get_trunk_interfaces (join newline [u"Port  Mode"; u"Gi8/1  on"])
  ∧ process_mac_address_table
      (join newline [u""; u"  10    0011.2233.4455    DYNAMIC     Gi8/1"])
      (join newline [u""; u"Port  Mode"; u" "; u"Gi8/1  on"])
    = process_mac_address_table
        (join newline [u"  10    0011.2233.4455    DYNAMIC     Gi8/1"; u" "])
        (join newline [u"Port  Mode"; u"Gi8/1  on"]).
Proof.
  apply blank_lines_immaterial; vm_compute; reflexivity.
Defined.

(** ** Lines and words *)

Section lines_and_words.

Lemma list_ind_two {A} (P : list A → Prop) :
  P [] → (∀ x, P [x]) → (∀ x y l, P l → P (y :: l) → P (x :: y :: l)) →
  ∀ l, P l.
Proof.
  intros H0 H1 H2 l.
  assert (P l ∧ ∀ x, P (x :: l)) as [? _]; [|done].
  induction l as [|y l [IH1 IH2]]; split; auto.
Qed.

Lemma linebreak_is_space c : is_linebreak c = true → is_space c = true.
Proof.
  unfold is_linebreak, is_space.
  rewrite !orb_true_iff, !andb_true_iff, !N.leb_le, !N.eqb_eq. lia.
Qed.

Lemma newline_is_linebreak : is_linebreak 10 = true.
Proof. reflexivity. Qed.

Lemma splitlines_from_no_linebreak (s cur : str) :
  no_linebreak cur → Forall no_linebreak (splitlines_from cur s).
Proof.
  assert (∀ cur : str, no_linebreak cur → no_linebreak (rev cur)) as Hrev.
  { unfold no_linebreak. intros c. rewrite !Forall_forall. intros H x Hx.
    apply H. by apply list_elem_of_In, in_rev, list_elem_of_In. }
  revert cur. induction s as [| c | c c' s IH1 IH2] using list_ind_two;
    intros cur Hcur.
  - simpl. destruct cur; simpl; repeat constructor. by apply (Hrev (_ :: _)).
  - simpl. destruct (is_linebreak c) eqn:Hc.
    + repeat constructor. by apply Hrev.
    + simpl. repeat constructor. apply (Hrev (c :: cur)). by constructor.
  - cbn [splitlines_from]. destruct (is_linebreak c) eqn:Hc.
    + constructor; [by apply Hrev|].
      destruct ((c =? 13) && (c' =? 10)); [apply IH1 | apply IH2]; constructor.
    + apply IH2. by constructor.
Qed.

Lemma splitlines_no_linebreak (s : str) : Forall no_linebreak (splitlines s).
Proof. apply splitlines_from_no_linebreak. constructor. Qed.

Lemma splitlines_from_app (l s cur : str) :
  no_linebreak l →
  splitlines_from cur (l ++ s) = splitlines_from (rev l ++ cur) s.
Proof.
  intros H. revert cur. induction H as [|c l Hc _ IH]; intros cur; [done|].
  simpl. rewrite Hc, IH. by rewrite <- app_assoc.
Qed.

Lemma splitlines_join (lines : list str) :
  Forall no_linebreak lines → Forall (λ l, l ≠ []) lines →
  splitlines (join newline lines) = lines.
Proof.
  intros Hlb Hne. induction lines as [|x lines IH]; [done|].
  inversion Hlb as [|? ? Hx Hlb']; inversion Hne as [|? ? Hx' Hne']; subst.
  specialize (IH Hlb' Hne'). unfold splitlines in *.
  destruct lines as [|y lines].
  - simpl. rewrite <- (app_nil_r x) at 1. rewrite splitlines_from_app by done.
    rewrite app_nil_r. cbn [splitlines_from].
    assert (truthy (rev x) = true) as ->.
    { destruct x as [|c x]; [done|]. simpl. by destruct (rev x). }
    by rewrite rev_involutive.
  - change (join newline (x :: y :: lines))
      with (x ++ 10 :: join newline (y :: lines)).
    rewrite splitlines_from_app by done. rewrite app_nil_r.
    cbn [splitlines_from]. rewrite newline_is_linebreak, rev_involutive.
    f_equal. destruct (join newline (y :: lines)) as [|c' s''] eqn:E.
    + inversion Hne' as [|? ? Hy _]. destruct lines; simpl in E.
      * done.
      * by destruct y.
    + replace ((10 =? 13) && (c' =? 10)) with false by done. exact IH.
Qed.

Lemma splitlines_from_two (cur : str) c c' s :
  splitlines_from cur (c :: c' :: s)
  = if is_linebreak c
    then rev cur :: (if (c =? 13) && (c' =? 10)
                     then splitlines_from [] s
                     else splitlines_from [] (c' :: s))
    else splitlines_from (c :: cur) (c' :: s).
Proof. reflexivity. Qed.

Lemma splitlines_from_words (s cur : str) :
  concat (map split (splitlines_from cur s)) = split (rev cur ++ s).
Proof.
  revert cur. induction s as [| c | c c' s IH1 IH2] using list_ind_two;
    intros cur.
  - simpl. rewrite app_nil_r. destruct cur; simpl; [done|].
    by rewrite app_nil_r.
  - simpl. destruct (is_linebreak c) eqn:Hc.
    + simpl. rewrite split_app_space by by apply linebreak_is_space. done.
    + simpl. by rewrite !app_nil_r.
  - rewrite splitlines_from_two. destruct (is_linebreak c) eqn:Hc.
    + rewrite split_app_space by by apply linebreak_is_space.
      cbn [map concat]. f_equal.
      destruct ((c =? 13) && (c' =? 10)) eqn:E.
      * rewrite IH1. apply andb_true_iff in E as [_ ->%N.eqb_eq].
        simpl. symmetry. apply (split_blank_app [10] s). by repeat constructor.
      * by rewrite IH2.
    + rewrite IH2. simpl. by rewrite <- app_assoc.
Qed.

Lemma merge_spec_words (lines : list str) (acc : str) :
  concat (map split (merge_spec lines acc))
  = split acc ++ concat (map split lines).
Proof.
  revert acc. induction lines as [|l lines IH]; intros acc.
  - simpl. destruct acc; simpl; by rewrite ?app_nil_r.
  - cbn [merge_spec map concat]. destruct (whitespace_only l) eqn:E.
    { rewrite IH. apply whitespace_only_blank in E.
      assert (split l = []) as -> by apply (split_from_blank [] l E).
      done. }
    destruct (starts_with_whitespace l).
    + rewrite IH. change (acc ++ u" " ++ strip l) with (acc ++ 32 :: strip l).
      rewrite split_app_space by done. by rewrite split_strip, app_assoc.
    + rewrite map_app, concat_app, IH, split_strip. f_equal.
      destruct acc; simpl; by rewrite ?app_nil_r.
Qed.

End lines_and_words.

(** X8. [merge_wrapped_lines] neither loses, adds nor reorders a word: the
    whitespace-delimited tokens of the logical lines, taken line after line,
    are the tokens of the raw text. *)
Theorem merge_keeps_words (raw : str) :
  ∃ merged,
    merge_wrapped_lines raw = Ok merged
    ∧ concat (map split merged) = split raw.
Proof.
  exists (logical_lines raw). split; [apply merge_wrapped_lines_eq|].
  unfold logical_lines. rewrite merge_spec_words.
  change (split []) with (@nil str). rewrite app_nil_l.
  unfold splitlines. by rewrite splitlines_from_words.
Qed.

(** ** The shape of a logical line *)

Section logical_line_shape.

Lemma lstrip_word_first (s : str) : word_first s = true → lstrip s = s.
Proof. destruct s as [|c s]; [done|]. simpl. by destruct (is_space c). Qed.

Lemma rstrip_word_last (s : str) : word_last s = true → rstrip s = s.
Proof.
  unfold word_last, rstrip. intros H.
  by rewrite lstrip_word_first, rev_involutive.
Qed.

Lemma strip_word_id (s : str) :
  word_first s = true → word_last s = true → strip s = s.
Proof.
  intros H1 H2. unfold strip. rewrite lstrip_word_first by done.
  by apply rstrip_word_last.
Qed.

Lemma word_first_app (a b : str) :
  word_first a = true → word_first (a ++ b) = true.
Proof. by destruct a. Qed.

Lemma word_last_app (a b : str) :
  word_last b = true → word_last (a ++ b) = true.
Proof.
  unfold word_last. rewrite rev_app_distr. apply word_first_app.
Qed.

Lemma word_first_not_blank (s : str) : word_first s = true → ¬ blank s.
Proof.
  destruct s as [|c s]; [done|]. simpl. intros H Hb.
  inversion Hb as [|? ? Hc _]. by rewrite Hc in H.
Qed.

Lemma lstrip_nil_or_word (s : str) :
  lstrip s = [] ∨ word_first (lstrip s) = true.
Proof.
  destruct (lstrip s) as [|c r] eqn:E; [by left|].
  right. simpl. by rewrite (lstrip_head _ _ _ E).
Qed.

Lemma strip_words (l : str) :
  whitespace_only l = false →
  word_first (strip l) = true ∧ word_last (strip l) = true.
Proof.
  intros Hl.
  assert (¬ blank l) as Hnb by (rewrite <- whitespace_only_blank; congruence).
  destruct (lstrip_nil_or_word l) as [E|Hm]; [by apply lstrip_nil in E|].
  unfold strip. set (m := lstrip l) in *.
  destruct (rstrip_decomp m) as (sp & Hdec & Hsp).
  assert (rstrip m ≠ []) as Hne.
  { intros E. rewrite E in Hdec. simpl in Hdec. subst sp.
    by apply word_first_not_blank in Hm. }
  split.
  - destruct (rstrip m) as [|c r] eqn:E; [done|].
    rewrite Hdec in Hm. exact Hm.
  - unfold word_last, rstrip. rewrite rev_involutive.
    destruct (lstrip_nil_or_word (rev m)) as [E|?]; [|done].
    unfold rstrip in Hne. by rewrite E in Hne.
Qed.

Lemma no_linebreak_lstrip (s : str) : no_linebreak s → no_linebreak (lstrip s).
Proof.
  unfold no_linebreak. induction 1 as [|c s Hc Hs IH]; simpl; [constructor|].
  destruct (is_space c); [done | by constructor].
Qed.

Lemma no_linebreak_rev (s : str) : no_linebreak s → no_linebreak (rev s).
Proof.
  unfold no_linebreak. rewrite !Forall_forall. intros H x Hx.
  apply H. by apply list_elem_of_In, in_rev, list_elem_of_In.
Qed.

Lemma no_linebreak_strip (s : str) : no_linebreak s → no_linebreak (strip s).
Proof.
  intros H. unfold strip, rstrip.
  by apply no_linebreak_rev, no_linebreak_lstrip, no_linebreak_rev,
    no_linebreak_lstrip.
Qed.

Lemma word_last_nonempty (s : str) : word_last s = true → s ≠ [].
Proof. by intros H ->. Qed.

Lemma word_last_tail c (t : str) :
  t ≠ [] → word_last (c :: t) = true → word_last t = true.
Proof.
  unfold word_last. simpl. intros Ht H.
  destruct (rev t) eqn:E; [|done].
  apply (f_equal (@rev N)) in E. rewrite rev_involutive in E. done.
Qed.

(** An accumulator that holds a line goes on holding one, and every line
    flushed after it starts and ends with a word. *)
Lemma merge_spec_from_line (lines : list str) :
  ∀ (Q : str → Prop) (acc : str),
    (∀ a b, Q a → Q (a ++ b)) →
    Forall no_linebreak lines →
    Q acc → word_last acc = true → no_linebreak acc →
    ∃ x xs,
      merge_spec lines acc = x :: xs
      ∧ Q x ∧ word_last x = true ∧ no_linebreak x
      ∧ Forall (λ l, word_first l = true ∧ word_last l = true
                     ∧ no_linebreak l) xs.
Proof.
  induction lines as [|l lines IH]; intros Q acc HQ Hlines Hacc Hlast Hlb.
  - exists acc, []. simpl. destruct acc; [done|]. by repeat split.
  - inversion Hlines as [|? ? Hl Hlines']; subst. cbn [merge_spec].
    destruct (whitespace_only l) eqn:E; [by apply IH|].
    destruct (strip_words l E) as [Hf Hla].
    pose proof (no_linebreak_strip l Hl) as Hsl.
    destruct (starts_with_whitespace l).
    + apply IH; try done.
      * by apply HQ.
      * by apply word_last_app, (word_last_app [32]).
      * apply Forall_app. split; [done|]. by constructor.
    + destruct (IH (λ x, word_first x = true) (strip l))
        as (x & xs & Hm & Hx1 & Hx2 & Hx3 & Hxs); try done.
      { intros a b. apply word_first_app. }
      exists acc, (x :: xs). rewrite Hm. destruct acc; [done|].
      repeat split; try done. by constructor.
Qed.

Lemma merge_spec_from_empty (lines : list str) :
  Forall no_linebreak lines →
  match merge_spec lines [] with
  | [] => True
  | x :: xs =>
      (word_first x = true ∨ ∃ t, x = 32 :: t ∧ word_first t = true)
      ∧ word_last x = true ∧ no_linebreak x
      ∧ Forall (λ l, word_first l = true ∧ word_last l = true
                     ∧ no_linebreak l) xs
  end.
Proof.
  induction 1 as [|l lines Hl Hlines IH]; [done|]. cbn [merge_spec].
  destruct (whitespace_only l) eqn:E; [done|].
  destruct (strip_words l E) as [Hf Hla].
  pose proof (no_linebreak_strip l Hl) as Hsl.
  destruct (starts_with_whitespace l).
  - destruct (merge_spec_from_line lines
                (λ x, ∃ t, x = 32 :: t ∧ word_first t = true)
                ([] ++ u" " ++ strip l))
      as (x & xs & -> & Hx1 & Hx2 & Hx3 & Hxs); try done.
    + intros a b (t & -> & Ht). exists (t ++ b).
      split; [done | by apply word_first_app].
    + by exists (strip l).
    + by apply (word_last_app [32]).
    + by constructor.
    + repeat split; try done. by right.
  - destruct (merge_spec_from_line lines (λ x, word_first x = true)
                (strip l))
      as (x & xs & Hm & Hx1 & Hx2 & Hx3 & Hxs); try done.
    { intros a b. apply word_first_app. }
    simpl. rewrite Hm. repeat split; try done. by left.
Qed.

End logical_line_shape.

Section logical_line_round_trip.

Lemma space_line_strip (t : str) :
  word_first t = true → word_last (32 :: t) = true → strip (32 :: t) = t.
Proof.
  intros H1 H2. unfold strip. change (lstrip (32 :: t)) with (lstrip t).
  rewrite lstrip_word_first by done. apply rstrip_word_last.
  apply (word_last_tail 32); [by destruct t | done].
Qed.

Lemma whitespace_only_word (l : str) :
  word_last l = true → whitespace_only l = false.
Proof.
  intros H. destruct (whitespace_only l) eqn:E; [|done].
  apply whitespace_only_blank, blank_rev in E.
  by apply word_first_not_blank in H.
Qed.

Lemma starts_with_whitespace_word (l : str) :
  word_first l = true → starts_with_whitespace l = false.
Proof. destruct l as [|c l]; [done|]. simpl. by destruct (is_space c). Qed.

Lemma merge_spec_lines_again (lines : list str) (acc : str) :
  acc ≠ [] →
  Forall (λ l, word_first l = true ∧ word_last l = true ∧ no_linebreak l)
    lines →
  merge_spec lines acc = acc :: lines.
Proof.
  intros Hacc H. revert acc Hacc.
  induction H as [|l lines (H1 & H2 & _) _ IH]; intros acc Hacc.
  - by destruct acc.
  - cbn [merge_spec].
    rewrite (whitespace_only_word _ H2), (starts_with_whitespace_word _ H1).
    rewrite (strip_word_id _ H1 H2), IH by by apply word_last_nonempty.
    by destruct acc.
Qed.

Lemma logical_lines_again (raw : str) :
  merge_spec (logical_lines raw) [] = logical_lines raw.
Proof.
  unfold logical_lines.
  pose proof (merge_spec_from_empty _ (splitlines_no_linebreak raw)) as H.
  destruct (merge_spec (splitlines raw) []) as [|x xs]; [done|].
  destruct H as (Hx & Hlast & _ & Hxs). cbn [merge_spec].
  rewrite (whitespace_only_word _ Hlast).
  destruct Hx as [Hx | (t & -> & Ht)].
  - rewrite (starts_with_whitespace_word _ Hx), (strip_word_id _ Hx Hlast).
    simpl. apply merge_spec_lines_again; [by apply word_last_nonempty|done].
  - replace (starts_with_whitespace (32 :: t)) with true by done.
    rewrite (space_line_strip _ Ht Hlast).
    by apply merge_spec_lines_again.
Qed.

Lemma logical_lines_wellformed (raw : str) :
  Forall no_linebreak (logical_lines raw)
  ∧ Forall (λ l, l ≠ []) (logical_lines raw).
Proof.
  unfold logical_lines.
  pose proof (merge_spec_from_empty _ (splitlines_no_linebreak raw)) as H.
  destruct (merge_spec (splitlines raw) []) as [|x xs].
  { split; constructor. }
  destruct H as (_ & Hlast & Hlb & Hxs). split; constructor; try done.
  - eapply Forall_impl; [exact Hxs|]. by intros l (_ & _ & ?).
  - by apply word_last_nonempty.
  - eapply Forall_impl; [exact Hxs|]. intros l (_ & ? & _).
    by apply word_last_nonempty.
Qed.

End logical_line_round_trip.

(** X9. Every logical line that [merge_wrapped_lines] returns has at least
    one character, no line boundary and no trailing whitespace.  Every
    logical line but the first has no leading whitespace either; the first
    has none, or starts with exactly one space (when the first non-blank
    physical line starts with whitespace). *)
Theorem logical_lines_shape (raw : str) :
  ∃ merged,
    merge_wrapped_lines raw = Ok merged
    ∧ Forall (λ l, l ≠ [] ∧ Forall (λ c, is_linebreak c = false) l
                   ∧ rstrip l = l) merged
    ∧ Forall (λ l, strip l = l) (tail merged)
    ∧ (∀ l, head merged = Some l → strip l = l ∨ l = u" " ++ strip l).
Proof.
  exists (logical_lines raw). split; [apply merge_wrapped_lines_eq|].
  unfold logical_lines.
  pose proof (merge_spec_from_empty _ (splitlines_no_linebreak raw)) as H.
  destruct (merge_spec (splitlines raw) []) as [|x xs].
  { split; [constructor|]. split; [constructor|]. intros l Hl. by simpl in Hl. }
  destruct H as (Hx & Hlast & Hlb & Hxs). split; [|split].
  - constructor.
    + split; [by apply word_last_nonempty|]. split; [done|].
      by apply rstrip_word_last.
    + eapply Forall_impl; [exact Hxs|]. intros l (H1 & H2 & H3).
      split; [by apply word_last_nonempty|]. split; [done|].
      by apply rstrip_word_last.
  - simpl. eapply Forall_impl; [exact Hxs|]. intros l (H1 & H2 & _).
    by apply strip_word_id.
  - intros l [= <-]. destruct Hx as [Hx | (t & -> & Ht)].
    + left. by apply strip_word_id.
    + right. by rewrite (space_line_strip _ Ht Hlast).
Qed.

(** X10. Merging is idempotent: the logical lines of a text, written one
    per physical line, are merged into themselves. *)
Theorem merge_wrapped_lines_idempotent (raw : str) :
  ∃ merged,
    merge_wrapped_lines raw = Ok merged
    ∧ splitlines (join newline merged) = merged
    ∧ merge_wrapped_lines (join newline merged) = Ok merged.
Proof.
  exists (logical_lines raw). split; [apply merge_wrapped_lines_eq|].
  assert (splitlines (join newline (logical_lines raw)) = logical_lines raw)
    as Hsplit.
  { destruct (logical_lines_wellformed raw). by apply splitlines_join. }
  split; [done|].
  rewrite merge_wrapped_lines_eq. unfold logical_lines at 1.
  by rewrite Hsplit, logical_lines_again.
Qed.

(** ** Marker lines *)

Section marker_lines.

Lemma merge_spec_skip_blanks (blanks lines : list str) (acc : str) :
  Forall (λ l, truthy (strip l) = false) blanks →
  merge_spec (blanks ++ lines) acc = merge_spec lines acc.
Proof.
  induction 1 as [|l blanks Hl _ IH]; [done|].
  cbn [app merge_spec]. rewrite strip_whitespace_only in Hl.
  apply negb_false_iff in Hl. by rewrite Hl.
Qed.

Lemma is_bottom_not_top line : is_bottom line = true → is_top line = false.
Proof.
  unfold is_bottom.
  intros [H|H]%orb_true_iff; apply startswith_spec in H as [r ->];
    reflexivity.
Qed.

Lemma is_top_spec line :
  is_top line = startswith line u"Total cdp entries displayed".
Proof. reflexivity. Qed.

Lemma in_category_main line c main :
  line ∈ in_category c main → line ∈ main.
Proof. rewrite elem_of_in_category. by intros [? _]. Qed.

End marker_lines.

(** X11. When the first non-blank physical line starts with whitespace,
    the first logical line starts with a space followed by the stripped
    content of that line; [process_cdp_neighbors] then takes it for a main
    line, never for the top line, whatever it holds (an indented "Total cdp
    entries displayed" line is not recognised). *)
Theorem indented_first_line_is_main (raw : str) (blanks rest : list str)
    (line : str) :
  splitlines raw = blanks ++ line :: rest →
  Forall (λ l, truthy (strip l) = false) blanks →
  truthy (strip line) = true →
  (∃ c r, line = c :: r ∧ is_space c = true) →
  ∃ first others sp cats,
    cdp_run raw (first :: others) sp cats
    ∧ startswith first (u" " ++ strip line) = true
    ∧ first ∈ main_lines sp
    ∧ top_line sp ≠ Some first.
Proof.
  intros Hsplit Hblanks Hline (c & r & -> & Hc).
  pose proof (cdp_run_exists raw) as Hrun. cbv zeta in Hrun.
  pose proof (splitlines_no_linebreak raw) as Hlb.
  rewrite Hsplit in Hlb. apply Forall_app in Hlb as [_ Hlb].
  inversion Hlb as [|? ? Hl Hrest]; subst.
  assert (whitespace_only (c :: r) = false) as Hw.
  { rewrite strip_whitespace_only in Hline. by apply negb_true_iff. }
  destruct (strip_words _ Hw) as [Hf Hla].
  destruct (merge_spec_from_line rest
              (λ x, ∃ b, x = (u" " ++ strip (c :: r)) ++ b)
              ([] ++ u" " ++ strip (c :: r)))
    as (first & others & Hm & (b & Hfirst) & _); try done.
  { intros a b' (b & ->). exists (b ++ b'). by rewrite <- !app_assoc. }
  { exists []. by rewrite app_nil_r. }
  { by apply (word_last_app [32]). }
  { constructor; [done | by apply no_linebreak_strip]. }
  assert (logical_lines raw = first :: others) as Hmerged.
  { unfold logical_lines. rewrite Hsplit, merge_spec_skip_blanks by done.
    cbn [merge_spec]. rewrite Hw. cbn [starts_with_whitespace].
    by rewrite Hc. }
  rewrite Hmerged in Hrun.
  assert (is_main first = true) as Hmain by by rewrite Hfirst.
  eexists _, _, _, _. split; [exact Hrun|]. cbn [main_lines top_line].
  split; [apply startswith_spec; eauto|].
  split.
  - apply elem_of_filter. split; [by left | done].
  - intros Htop. apply last_filter_elem in Htop as [Htop _].
    by rewrite Hfirst in Htop.
Qed.

Lemma indented_first_line_is_main_witness :
  ∃ first others sp cats,
    cdp_run (join newline [u""; u"   Total cdp entries displayed : 5"])
      (first :: others) sp cats
    ∧ startswith first
        (u" " ++ strip u"   Total cdp entries displayed : 5") = true
    ∧ first ∈ main_lines sp
    ∧ top_line sp ≠ Some first.
Proof.
  apply (indented_first_line_is_main
           (join newline [u""; u"   Total cdp entries displayed : 5"])
           [u""] [] u"   Total cdp entries displayed : 5").
  - vm_compute. reflexivity.
  - repeat constructor.
  - vm_compute. reflexivity.
  - exists 32, u"  Total cdp entries displayed : 5". split; reflexivity.
Defined.

Example indented_total_line_unsorted :
  process_cdp_neighbors (join newline [u""; u"   Total cdp entries displayed : 5"])
  = Ok (join newline
          [u"Total cdp entries displayed: N/A"; []; [];
           u"WAPs:"; u"No WAP entries found."; u"Total number of WAPs: 0";
           newline ++ u"Phone Handsets:"; u"No phone handset entries found.";
           u"Total number of Phone Handsets: 0";
           newline ++ u"sav switches:"; u"No sav switch entries found.";
           newline ++ u"uplink to distribution layer:";
           u"No uplink entries found.";
           newline ++ u"Unsorted:"; u" Total cdp entries displayed : 5";
           []; []; []; u"No bottom special lines found."]).
Proof. vm_compute. reflexivity. Qed.

(** X12. A logical line that starts with "Total cdp entries displayed",
    "Capability Codes:" or "Device ID" is in none of the five category
    sections, even when it contains a category keyword; the bottom lines are
    the logical lines that start with "Capability Codes:" or "Device ID", in
    their order. *)
Theorem special_lines_not_classified (raw : str) :
  ∃ merged sp cats,
    cdp_run raw merged sp cats
    ∧ bottom_lines sp
      = List.filter
          (λ l, startswith l u"Capability Codes:" || startswith l u"Device ID")
          merged
    ∧ ∀ line c,
        startswith line u"Total cdp entries displayed" = true
        ∨ startswith line u"Capability Codes:" = true
        ∨ startswith line u"Device ID" = true →
        line ∉ section_of c cats.
Proof.
  pose proof (cdp_run_exists raw) as Hrun. cbv zeta in Hrun.
  eexists _, _, _. split; [exact Hrun|]. cbn [bottom_lines main_lines].
  split.
  - apply filter_ext. intros l. fold (is_bottom l).
    destruct (is_bottom l) eqn:E; [|by rewrite andb_false_r].
    by rewrite (is_bottom_not_top _ E).
  - intros line c Hline Hin.
    assert (line ∈ List.filter is_main (logical_lines raw)) as Hmain.
    { destruct c; by apply in_category_main in Hin. }
    apply elem_of_filter in Hmain as [_ Hmain]. unfold is_main in Hmain.
    apply andb_true_iff in Hmain as [Ht%negb_true_iff Hb%negb_true_iff].
    unfold is_bottom in Hb. apply orb_false_iff in Hb as [Hb1 Hb2].
    rewrite is_top_spec in Ht. destruct Hline as [?|[?|?]]; congruence.
Qed.

(** X13. The report of [process_cdp_neighbors] always starts with "Total
    cdp entries displayed": with the logical line that starts so, or with the
    N/A placeholder. *)
Theorem report_starts_with_total_line (raw : str) :
  ∃ out,
    process_cdp_neighbors raw = Ok out
    ∧ startswith out u"Total cdp entries displayed" = true.
Proof.
  pose proof (cdp_run_exists raw) as Hrun. cbv zeta in Hrun.
  pose proof (cdp_run_top _ _ _ _ Hrun) as Htop.
  destruct Hrun as (_ & _ & _ & Hout).
  eexists. split; [exact Hout|].
  rewrite (cdp_output_sections_layout _ _ Htop). unfold report_layout.
  cbn [top_line app join].
  destruct (last (List.filter is_top (logical_lines raw))) as [t|] eqn:E.
  - apply last_filter_elem in E as [Ht _]. rewrite is_top_spec in Ht.
    apply startswith_spec in Ht as [r ->]. cbn [from_option id].
    apply startswith_spec. eexists. by rewrite <- app_assoc.
  - reflexivity.
Qed.

(** ** File names and the filter of "show int status" *)

Section file_names.

Lemma replace_char (s new : str) (o : N) :
  replace s [o] new = flat_map (λ c, if o =? c then new else [c]) s.
Proof.
  unfold replace. induction s as [|c s IH]; [done|].
  cbn [replace_from flat_map startswith length pred].
  rewrite andb_true_r, IH. by destruct (o =? c).
Qed.

Lemma replace_char_absent (s new : str) (o : N) :
  o ∉ new → o ∉ replace s [o] new.
Proof.
  intros Hnew. rewrite replace_char. induction s as [|c s IH]; simpl.
  - by intros ?%elem_of_nil.
  - rewrite elem_of_app. intros [H|H]; [|done].
    destruct (o =? c) eqn:E; [done|].
    apply list_elem_of_singleton in H. subst. by rewrite N.eqb_refl in E.
Qed.

Lemma replace_char_keeps_absent (s new : str) (o x : N) :
  x ∉ s → x ∉ new → x ∉ replace s [o] new.
Proof.
  intros Hs Hnew. rewrite replace_char. induction s as [|c s IH]; simpl.
  - by intros ?%elem_of_nil.
  - rewrite elem_of_app. apply not_elem_of_cons in Hs as [Hxc Hs].
    intros [H|H]; [|by apply IH].
    destruct (o =? c); [done|]. by apply list_elem_of_singleton in H.
Qed.

Lemma underscore_other (x : N) : x ≠ 95 → x ∉ u"_".
Proof.
  intros H Hin. change (u"_") with [95] in Hin.
  by apply list_elem_of_singleton in Hin.
Qed.

Lemma special_names (command name : str) :
  special_command_names !! command = Some name →
  name = u"10mb_interfaces" ∨ name = u"cdp_neighbors_processed"
  ∨ name = u"mac_address_table_processed".
Proof.
  intros H. unfold special_command_names in H.
  apply elem_of_list_to_map_2 in H.
  apply list_elem_of_In in H. simpl in H.
  destruct H as [H|[H|[H|[]]]]; injection H as _ <-; auto.
Qed.

Lemma map_wrap_NoDup (pre suf : str) (l : list str) :
  NoDup l → NoDup (map (λ x, pre ++ x ++ suf) l).
Proof.
  induction 1 as [|x l Hx Hl IH]; simpl; constructor; [|done].
  rewrite list_elem_of_In, in_map_iff. intros (y & Heq & Hy).
  apply app_inv_head, app_inv_tail in Heq. subst.
  by apply Hx, list_elem_of_In.
Qed.

End file_names.

(** X14. The part of a file name that [run_commands] derives from a
    command never holds a space, a slash or a vertical bar. *)
Theorem command_filename_is_clean (command : str) :
  Forall (λ c, c ≠ 32 ∧ c ≠ 47 ∧ c ≠ 124) (command_filename command).
Proof.
  unfold command_filename.
  destruct (special_command_names !! command) as [name|] eqn:E.
  - apply special_names in E as [-> | [-> | ->]]; vm_compute;
      repeat (constructor; [repeat split; discriminate|]); constructor.
  - set (s1 := replace command u" " u"_").
    set (s2 := replace s1 u"/" u"_").
    assert (32 ∉ s1) as H1.
    { by apply (replace_char_absent command u"_" 32), underscore_other. }
    assert ((32 ∉ s2) ∧ (47 ∉ s2)) as [H2 H3].
    { split.
      - by apply (replace_char_keeps_absent s1 u"_" 47 32), underscore_other.
      - by apply (replace_char_absent s1 u"_" 47), underscore_other. }
    apply Forall_forall. intros c Hc. repeat split; intros ->; revert Hc.
    + apply (replace_char_keeps_absent s2 [] 124 32); [done|].
      by intros ?%elem_of_nil.
    + apply (replace_char_keeps_absent s2 [] 124 47); [done|].
      by intros ?%elem_of_nil.
    + apply (replace_char_absent s2 [] 124). by intros ?%elem_of_nil.
Qed.

(** X15. Within one run of [run_commands] no two commands are written to
    the same file: for every host name and date the six file names are
    pairwise different, and each ends in ".txt". *)
Theorem filenames_distinct (hostname date_str : str) :
  NoDup (map (filename hostname date_str) commands)
  ∧ Forall (λ name, ∃ stem, name = stem ++ u".txt")
      (map (filename hostname date_str) commands).
Proof.
  split.
  - assert (map (filename hostname date_str) commands
            = map (λ x, (hostname ++ u"_" ++ date_str ++ u"_") ++ x ++ u".txt")
                (map command_filename commands)) as ->.
    { rewrite map_map. apply map_ext. intros c. unfold filename.
      by rewrite <- !app_assoc. }
    apply map_wrap_NoDup.
    apply (bool_decide_unpack (NoDup (map command_filename commands))).
    vm_compute. exact I.
  - apply Forall_forall. intros name Hin.
    apply list_elem_of_In, in_map_iff in Hin as (c & <- & _).
    unfold filename. exists (hostname ++ u"_" ++ date_str ++ u"_"
                             ++ command_filename c).
    by rewrite <- !app_assoc.
Qed.

(** X16. The filter of "show int status" keeps, in order, exactly the
    physical lines that contain "a-10 " (with the space), and filtering its
    own output changes nothing. *)
Theorem filter_int_status_10mb_idempotent (raw : str) :
  splitlines (filter_int_status_10mb raw)
  = List.filter (λ line, contains u"a-10 " line) (splitlines raw)
  ∧ Forall (λ line, contains u"a-10 " line = true)
      (splitlines (filter_int_status_10mb raw))
  ∧ filter_int_status_10mb (filter_int_status_10mb raw)
    = filter_int_status_10mb raw.
Proof.
  assert (splitlines (filter_int_status_10mb raw)
          = List.filter (λ line, contains u"a-10 " line) (splitlines raw))
    as Hsplit.
  { unfold filter_int_status_10mb. apply splitlines_join.
    - pose proof (splitlines_no_linebreak raw) as H.
      rewrite Forall_forall in *. intros l [Hl _]%elem_of_filter. by apply H.
    - apply Forall_forall. intros l [_ Hl]%elem_of_filter. by intros ->. }
  split; [done|]. split.
  - rewrite Hsplit. apply Forall_forall. by intros l [_ Hl]%elem_of_filter.
  - unfold filter_int_status_10mb at 1. rewrite Hsplit.
    unfold filter_int_status_10mb. f_equal.
    apply filter_all. by intros l [_ Hl]%elem_of_filter.
Qed.

(** ** The physical lines of a report *)

Section report_lines.

Lemma join_cons (sep x : str) (l : list str) :
  l ≠ [] → join sep (x :: l) = x ++ sep ++ join sep l.
Proof. by destruct l. Qed.

Lemma join_heading (pre post : list str) (h : str) :
  join newline (pre ++ (newline ++ h) :: post)
  = join newline (pre ++ [] :: h :: post).
Proof.
  induction pre as [|x pre IH].
  - simpl. destruct post; simpl; by rewrite <- ?app_assoc.
  - rewrite <- !app_comm_cons, !join_cons, IH; by try destruct pre.
Qed.

Lemma splitlines_join_last (lines : list str) :
  Forall no_linebreak lines → (∀ l, last lines = Some l → l ≠ []) →
  splitlines (join newline lines) = lines.
Proof.
  intros Hlb. induction Hlb as [|x lines Hx Hlb IH]; intros Hlast; [done|].
  unfold splitlines in *. destruct lines as [|y lines].
  - apply (splitlines_join [x]); repeat constructor; [done|].
    by apply Hlast.
  - rewrite join_cons by done. change (newline ++ ?s) with (10 :: s).
    rewrite splitlines_from_app by done. rewrite app_nil_r.
    cbn [splitlines_from]. rewrite newline_is_linebreak, rev_involutive.
    f_equal. destruct (join newline (y :: lines)) as [|c' s''] eqn:E.
    + destruct lines as [|z lines]; simpl in E.
      * subst y. by destruct (Hlast [] eq_refl).
      * by destruct y.
    + replace ((10 =? 13) && (c' =? 10)) with false by done.
      apply IH. intros l Hl. apply Hlast. by rewrite last_cons, Hl.
Qed.

Lemma last_app_body (pre body : list str) :
  body ≠ [] → Forall (λ l, l ≠ []) body →
  ∀ l, last (pre ++ body) = Some l → l ≠ [].
Proof.
  intros Hne Hall l Hl. destruct body as [|b body _] using rev_ind; [done|].
  rewrite app_assoc, last_snoc in Hl. injection Hl as <-.
  apply Forall_app in Hall as [_ Hb]. by inversion Hb.
Qed.

Lemma section_body_all (P : str → Prop) (lines : list str) (p : str) :
  Forall P lines → P p → Forall P (section_body lines p).
Proof. destruct lines; simpl; [by repeat constructor | done]. Qed.

Lemma section_body_nonempty (lines : list str) (p : str) :
  section_body lines p ≠ [].
Proof. by destruct lines. Qed.

Lemma Forall_filter {A} (P : A → Prop) (p : A → bool) (l : list A) :
  Forall P l → Forall P (List.filter p l).
Proof.
  rewrite !Forall_forall. intros H x [Hx _]%elem_of_filter. by apply H.
Qed.

Lemma nonblank_nonempty (lines : list str) :
  Forall (λ l, l ≠ []) (List.filter (λ l, truthy (strip l)) lines).
Proof.
  apply Forall_forall. intros l [_ Hl]%elem_of_filter. by intros ->.
Qed.

Lemma of_string_no_linebreak_digits (d : Decimal.uint) :
  no_linebreak (of_string (NilEmpty.string_of_uint d)).
Proof. induction d; simpl; by constructor. Qed.

Lemma str_of_nat_no_linebreak (n : nat) : no_linebreak (str_of_nat n).
Proof.
  unfold str_of_nat, NilZero.string_of_uint.
  destruct (Nat.to_uint n) eqn:E;
    try (rewrite <- E; apply of_string_no_linebreak_digits).
  by repeat constructor.
Qed.

End report_lines.

(** X17. Read back line by line, the report of
    [process_mac_address_table] is: the heading "local mac addresses:", the
    local data lines unchanged (or the placeholder), an empty line, the
    heading "remotely learned mac addresses:", and the remote data lines
    unchanged (or the placeholder); every data line is one physical line of
    the report. *)
Theorem mac_report_physical_lines (raw_mac raw_trunk : str) :
  ∃ trunks data st out,
    mac_run raw_mac raw_trunk trunks data st
    ∧ process_mac_address_table raw_mac raw_trunk = Ok out
    ∧ splitlines out
      = [u"local mac addresses:"]
        ++ section_body (local_macs st) u"No local mac addresses found."
        ++ [[]; u"remotely learned mac addresses:"]
        ++ section_body (remote_macs st)
             u"No remotely learned mac addresses found.".
Proof.
  pose proof (mac_run_exists raw_mac raw_trunk) as Hrun. cbv zeta in Hrun.
  set (data := List.filter (λ l, negb (noise l)) (mac_lines raw_mac)) in *.
  eexists _, _, _, _. split; [exact Hrun|].
  destruct Hrun as (_ & _ & _ & Hout). split; [exact Hout|].
  cbn [local_macs remote_macs].
  rewrite mac_output_sections_layout. cbn [local_macs remote_macs].
  assert (Forall no_linebreak data ∧ Forall (λ l, l ≠ []) data) as [Hlb Hne].
  { unfold data, mac_lines. split; apply Forall_filter.
    - apply Forall_filter, splitlines_no_linebreak.
    - apply nonblank_nonempty. }
  set (bl := section_body _ u"No local mac addresses found.").
  set (br := section_body _ u"No remotely learned mac addresses found.").
  assert (Forall no_linebreak bl ∧ Forall no_linebreak br) as [Hbl Hbr].
  { split; (apply section_body_all; [by apply Forall_filter|]);
      vm_compute; by repeat constructor. }
  change (splitlines
            (join newline
               ((u"local mac addresses:" :: bl)
                ++ (newline ++ u"remotely learned mac addresses:") :: br))
          = (u"local mac addresses:" :: bl)
            ++ [] :: u"remotely learned mac addresses:" :: br).
  rewrite join_heading. apply splitlines_join_last.
  - apply Forall_app. split.
    + constructor; [|done]. vm_compute. by repeat constructor.
    + constructor; [constructor|]. constructor; [|done].
      vm_compute. by repeat constructor.
  - replace ((u"local mac addresses:" :: bl)
             ++ [] :: u"remotely learned mac addresses:" :: br)
      with (((u"local mac addresses:" :: bl)
             ++ [[]; u"remotely learned mac addresses:"]) ++ br)
      by by rewrite <- app_assoc.
    apply last_app_body; [apply section_body_nonempty|].
    apply section_body_all; [by apply Forall_filter | done].
Qed.

Section neighbor_report_lines.

Lemma join_join_rest (sep x : str) (l : list str) :
  join sep (x :: l) = x ++ join_rest sep l.
Proof.
  revert x. induction l as [|y l IH]; intros x.
  - simpl. by rewrite app_nil_r.
  - rewrite join_cons by done. rewrite IH. unfold join_rest. simpl.
    by rewrite <- app_assoc.
Qed.

Lemma join_rest_app (sep : str) (a b : list str) :
  join_rest sep (a ++ b) = join_rest sep a ++ join_rest sep b.
Proof. unfold join_rest. by rewrite flat_map_app. Qed.

Lemma join_rest_cons (sep x : str) (l : list str) :
  join_rest sep (x :: l) = sep ++ x ++ join_rest sep l.
Proof. unfold join_rest. simpl. by rewrite <- app_assoc. Qed.

Lemma count_line_no_linebreak (label : str) (n : nat) :
  no_linebreak label → no_linebreak (label ++ str_of_nat n).
Proof.
  intros H. apply Forall_app. split; [done | apply str_of_nat_no_linebreak].
Qed.

End neighbor_report_lines.

(** X18. Read back line by line, the report of [process_cdp_neighbors] is
    the top line, two empty lines, and the five sections, each after an
    empty line but the first, then three empty lines and the bottom lines;
    every logical line of the input that the report shows is one physical
    line of the report, unchanged. *)
Theorem cdp_report_physical_lines (raw : str) :
  ∃ merged sp cats out,
    cdp_run raw merged sp cats
    ∧ process_cdp_neighbors raw = Ok out
    ∧ splitlines out
      = [from_option id u"Total cdp entries displayed: N/A" (top_line sp);
         []; []; u"WAPs:"]
        ++ section_body (waps cats) u"No WAP entries found."
        ++ [u"Total number of WAPs: " ++ str_of_nat (length (waps cats));
            []; u"Phone Handsets:"]
        ++ section_body (phone_handsets cats)
             u"No phone handset entries found."
        ++ [u"Total number of Phone Handsets: "
            ++ str_of_nat (length (phone_handsets cats));
            []; u"sav switches:"]
        ++ section_body (sav_switches cats) u"No sav switch entries found."
        ++ [[]; u"uplink to distribution layer:"]
        ++ section_body (uplinks cats) u"No uplink entries found."
        ++ [[]; u"Unsorted:"]
        ++ section_body (unsorted cats) u"No unsorted entries found."
        ++ [[]; []; []]
        ++ section_body (bottom_lines sp) u"No bottom special lines found.".
Proof.
  pose proof (cdp_run_exists raw) as Hrun. cbv zeta in Hrun.
  pose proof (cdp_run_top _ _ _ _ Hrun) as Htop.
  destruct (logical_lines_wellformed raw) as [Hlb Hne].
  set (merged := logical_lines raw) in *.
  set (sp := SpecialState _ _ _) in *.
  set (cats := Categories _ _ _ _ _) in *.
  exists merged, sp, cats, (join newline (cdp_output_sections sp cats)).
  split; [exact Hrun|]. destruct Hrun as (_ & _ & _ & Hout).
  split; [exact Hout|].
  rewrite (cdp_output_sections_layout _ _ Htop). unfold report_layout.
  set (top := from_option id _ _).
  set (bw := section_body (waps cats) _).
  set (bp := section_body (phone_handsets cats) _).
  set (bs := section_body (sav_switches cats) _).
  set (bu := section_body (uplinks cats) _).
  set (bn := section_body (unsorted cats) _).
  set (bb := section_body (bottom_lines sp) _).
  set (cw := _ ++ str_of_nat (length (waps cats))).
  set (cp := _ ++ str_of_nat (length (phone_handsets cats))).
  assert (∀ p, Forall no_linebreak (List.filter p merged)) as Hf
    by (intros p; by apply Forall_filter).
  assert (no_linebreak top) as Htl.
  { unfold top, sp. cbn [top_line].
    destruct (last (List.filter is_top merged)) as [t|] eqn:E; simpl.
    - apply last_filter_elem in E as [_ E].
      rewrite Forall_forall in Hlb. by apply Hlb.
    - vm_compute. by repeat constructor. }
  assert (Forall no_linebreak bw ∧ Forall no_linebreak bp
          ∧ Forall no_linebreak bs ∧ Forall no_linebreak bu
          ∧ Forall no_linebreak bn ∧ Forall no_linebreak bb)
    as (Hbw & Hbp & Hbs & Hbu & Hbn & Hbb).
  { unfold bw, bp, bs, bu, bn, bb, cats, sp, in_category.
    cbn [waps phone_handsets sav_switches uplinks unsorted bottom_lines
           main_lines].
    repeat split;
      (apply section_body_all;
       [first [apply Hf | apply Forall_filter, Hf]
       | vm_compute; by repeat constructor]). }
  assert (no_linebreak cw ∧ no_linebreak cp) as [Hcw Hcp].
  { split; apply count_line_no_linebreak; vm_compute; by repeat constructor. }
  assert (Forall (λ l, l ≠ []) bb) as Hbbne.
  { unfold bb, sp. cbn [bottom_lines].
    apply section_body_all; [by apply Forall_filter | done]. }
  transitivity
    (splitlines
       (join newline
          ([top; []; []; u"WAPs:"] ++ bw ++ [cw; []; u"Phone Handsets:"]
           ++ bp ++ [cp; []; u"sav switches:"] ++ bs
           ++ [[]; u"uplink to distribution layer:"] ++ bu
           ++ [[]; u"Unsorted:"] ++ bn ++ [[]; []; []] ++ bb))).
  { f_equal. cbn [app]. rewrite !join_join_rest. f_equal.
    repeat (rewrite join_rest_cons || rewrite join_rest_app).
    by rewrite <- !app_assoc. }
  apply splitlines_join_last.
  - repeat (apply Forall_app; split); try done;
      repeat (constructor; try done); vm_compute; by repeat constructor.
  - rewrite !app_assoc. apply last_app_body; [apply section_body_nonempty|done].
Qed.
